(** * papis/downloaders/base.py: metadata extraction and the fetch orchestrator

    A shallow embedding of [parse_meta_headers], [parse_meta_authors] and of
    the [Downloader] base class ([fetch], the lazy caches and
    [check_document_format]), with the properties of the specification that
    concern them. *)

From Stdlib Require Import Ascii NArith.
From stdpp Require Import gmap strings list fin_maps.

Set Default Proof Using "Type".

(** ** Python exceptions and results *)

Inductive exn : Type :=
  | NotImplementedError
  | AssertionError
  | TypeError
  | IndexError
  | UnboundLocalError
  | OtherError (tag : string).

Global Instance exn_eq_dec : EqDecision exn.
Proof. solve_decision. Defined.

(** The result of running a piece of Python: a value or a raised exception. *)
Inductive outcome (A : Type) : Type :=
  | Ret (a : A)
  | Raise (e : exn).
Arguments Ret {A} a.
Arguments Raise {A} e.

Definition obind {A B} (o : outcome A) (k : A → outcome B) : outcome B :=
  match o with
  | Ret a => k a
  | Raise e => Raise e
  end.

(** A [for] loop that appends one computed item per element and stops at the
    first exception. *)
Fixpoint omapM {A B} (f : A → outcome B) (l : list A) : outcome (list B) :=
  match l with
  | [] => Ret []
  | x :: r => obind (f x) (λ y, obind (omapM f r) (λ ys, Ret (y :: ys)))
  end.

(** ** Strings

    A [str] is a sequence of code points; the model keeps the code points
    below 256, one per [ascii]. *)

Module Str.

Definition code (c : ascii) : N := N_of_ascii c.

(** [\s] of a [str] pattern: [str.isspace] on one code point. *)
Definition is_space (c : ascii) : bool :=
  let n := code c in
  ((9 <=? n) && (n <=? 13) || (28 <=? n) && (n <=? 32)
   || (n =? 133) || (n =? 160))%N.

(** [str.lower] on one code point: A-Z and the Latin-1 capitals. *)
Definition lower_char (c : ascii) : ascii :=
  let n := code c in
  if ((65 <=? n) && (n <=? 90)
      || (192 <=? n) && (n <=? 222) && negb (n =? 215))%N
  then ascii_of_N (n + 32) else c.

Fixpoint lower (s : string) : string :=
  match s with
  | EmptyString => EmptyString
  | String c r => String (lower_char c) (lower r)
  end.

(** Truth value of a [str]: non-empty. *)
Definition truthy (s : string) : bool :=
  match s with EmptyString => false | String _ _ => true end.

(** [sep.join(l)] *)
Fixpoint join (sep : string) (l : list string) : string :=
  match l with
  | [] => ""
  | [x] => x
  | x :: r => x +:+ sep +:+ join sep r
  end.

(** [re.split('\s+', s)]: the pieces of [s] between the maximal non-empty
    runs of whitespace; a run at either end leaves an empty piece there.
    [tok] is the piece being read, [in_run] tells that the previous
    character belonged to a separator. *)
Fixpoint re_split_go (in_run : bool) (tok : string) (s : string)
  : list string :=
  match s with
  | EmptyString => [tok]
  | String c r =>
      if is_space c then
        if in_run then re_split_go true tok r
        else tok :: re_split_go true "" r
      else re_split_go false (tok +:+ String c "") r
  end.

Definition re_split (s : string) : list string := re_split_go false "" s.

(** No character of [s] is whitespace. *)
Fixpoint no_space (s : string) : bool :=
  match s with
  | EmptyString => true
  | String c r => negb (is_space c) && no_space r
  end.

(** Every character of [s] is whitespace. *)
Fixpoint all_space (s : string) : bool :=
  match s with
  | EmptyString => true
  | String c r => is_space c && all_space r
  end.

(** [s] does not begin with whitespace. *)
Definition starts_tight (s : string) : bool :=
  match s with
  | EmptyString => true
  | String c _ => negb (is_space c)
  end.

End Str.

(** ** Strings of arbitrary code points

    The text of a full name can hold any character, so the expressions that
    split it ([re.split], indexing, [join]) are also given on sequences of
    Unicode code points, where [\s] is known in full. *)

Module Text.

Definition text : Type := list N.

(** The code points of a string of the 8-bit alphabet. *)
Definition of_string (s : string) : text :=
  N_of_ascii <$> String.list_ascii_of_string s.

(** U+0020 *)
Definition space : N := 32%N.

(** [\s] of a [str] pattern, that is [str.isspace]: the ASCII controls and
    separators, NEL, NBSP, U+1680, U+2000 to U+200A, the line and paragraph
    separators, U+202F, U+205F and U+3000. *)
Definition is_space (c : N) : bool :=
  ((9 <=? c) && (c <=? 13) || (28 <=? c) && (c <=? 32)
   || (c =? 133) || (c =? 160) || (c =? 5760)
   || (8192 <=? c) && (c <=? 8202)
   || (c =? 8232) || (c =? 8233) || (c =? 8239) || (c =? 8287)
   || (c =? 12288))%N.

(** [sep.join(l)] *)
Fixpoint join (sep : text) (l : list text) : text :=
  match l with
  | [] => []
  | [x] => x
  | x :: r => x ++ sep ++ join sep r
  end.

(** [re.split('\s+', s)], as [Str.re_split_go]. *)
Fixpoint re_split_go (in_run : bool) (tok : text) (s : text) : list text :=
  match s with
  | [] => [tok]
  | c :: r =>
      if is_space c then
        if in_run then re_split_go true tok r
        else tok :: re_split_go true [] r
      else re_split_go false (tok ++ [c]) r
  end.

Definition re_split (s : text) : list text := re_split_go false [] s.

(** [fullnames = re.split('\s+', fullname)] and then the pair of
    [fullnames[0]] and [' '.join(fullnames[1:])]. *)
Definition split_name (fullname : text) : outcome (text * text) :=
  match re_split fullname with
  | [] => Raise IndexError
  | g :: rest => Ret (g, join [space] rest)
  end.

Definition no_space (s : text) : bool := forallb (λ c, negb (is_space c)) s.

Definition all_space (s : text) : bool := forallb is_space s.

Definition starts_tight (s : text) : bool :=
  match s with
  | [] => true
  | c :: _ => negb (is_space c)
  end.


End Text.

(** ** The parsed document *)

(** One element of the parsed HTML document: its tag name and attributes. *)
Record element : Type := Element {
  tag_name : string;
  attrs : gmap string string;
}.

(** The document, as the sequence of its elements in document order. *)
Definition soup : Type := list element.

(** [tag.get(key)] / [tag.attrs.get(key)] *)
Definition attr_get (e : element) (key : string) : option string :=
  attrs e !! key.

Definition has_attrs (filt : list (string * string)) (e : element) : bool :=
  forallb (λ kv, bool_decide (attr_get e kv.1 = Some kv.2)) filt.

(** [soup.find_all(name=..., attrs=...)] *)
Definition find_all (name : string) (filt : list (string * string))
    (doc : soup) : list element :=
  List.filter (λ e, bool_decide (tag_name e = name) && has_attrs filt e) doc.

(** ** Author records *)

Record affiliation_rec : Type := Affiliation { name : option string }.

Record author : Type := Author {
  given : string;
  family : string;
  affiliation : list affiliation_rec;
}.

(** Values stored in the mapping returned by [parse_meta_headers]. *)
Inductive value : Type :=
  | VNone
  | VStr (s : string)
  | VAuthorList (l : list author).

Definition of_option (o : option string) : value :=
  match o with Some s => VStr s | None => VNone end.

(** ** parse_meta_authors *)

(** The body of the loop over [tuples]: one author record. [re.split] raises
    [TypeError] on [None]. *)
Definition author_of_tuple (t : element * option element) : outcome author :=
  let fullname := attr_get t.1 "content" in
  let affiliation :=
    match t.2 with
    | Some a => [Affiliation (attr_get a "content")]
    | None => []
    end in
  match fullname with
  | None => Raise TypeError
  | Some fullname =>
      match Str.re_split fullname with
      | [] => Raise IndexError
      | g :: rest => Ret (Author g (Str.join " " rest) affiliation)
      end
  end.

Definition authors_of (doc : soup) : list element :=
  find_all "meta" [("name", "citation_author")] doc.

Definition affs_of (doc : soup) : list element :=
  find_all "meta" [("name", "citation_author_institution")] doc.

Definition parse_meta_authors (doc : soup) : outcome (list author) :=
  let authors := authors_of doc in
  let affs := affs_of doc in
  match affs, authors with
  | _ :: _, _ :: _ =>
      omapM author_of_tuple ((λ p, (p.1, Some p.2)) <$> zip authors affs)
  | _, _ :: _ =>
      omapM author_of_tuple ((λ a, (a, None)) <$> authors)
  | _, [] => Ret []
  end.

(** ** Stateful computations that may raise

    Python code that mutates objects and may raise is threaded through an
    explicit state; the state reached when an exception leaves the code is
    kept, since mutations made before a [raise] remain. *)

Definition ST (S A : Type) : Type := S → outcome A * S.

Definition sret {S A} (a : A) : ST S A := λ σ, (Ret a, σ).

Definition sraise {S A} (e : exn) : ST S A := λ σ, (Raise e, σ).

Definition sbind {S A B} (m : ST S A) (k : A → ST S B) : ST S B :=
  λ σ, match m σ with
       | (Ret a, σ') => k a σ'
       | (Raise e, σ') => (Raise e, σ')
       end.

Definition slift {S A} (o : outcome A) : ST S A := λ σ, (o, σ).

Declare Scope st_scope.
Delimit Scope st_scope with st.
Notation "'let*' x := m 'in' k" := (sbind m (λ x, k))
  (at level 10, x name, m at level 100, k at level 200) : st_scope.
Notation "'run' m 'in' k" := (sbind m (λ _, k))
  (at level 10, m at level 100, k at level 200) : st_scope.

(** [try: body / except NotImplementedError: pass / else: orelse]. Only
    [NotImplementedError] raised by [body] is caught; what [orelse] raises
    leaves the statement. *)
Definition try_not_implemented {S A} (body : ST S A) (orelse : A → ST S unit)
    : ST S unit :=
  λ σ, match body σ with
       | (Ret a, σ') => orelse a σ'
       | (Raise NotImplementedError, σ') => (Ret tt, σ')
       | (Raise e, σ') => (Raise e, σ')
       end.

(** ** The object store

    [meta_equivalences] is a module-level dictionary and [copy.copy] and
    [dict.update] act on dictionary objects, so the dictionaries of
    [parse_meta_headers] live in a store of objects addressed by location. *)

Definition loc : Type := positive.

Abbreviation store := (gmap loc (gmap string string)).

Abbreviation SM := (ST store).

(** Reading the dictionary object at [l]. *)
Definition dict_read (l : loc) : SM (gmap string string) :=
  λ σ, match σ !! l with
       | Some d => (Ret d, σ)
       | None => (Raise (OtherError "no such object"), σ)
       end.

(** [copy.copy(d)]: a new dictionary object with the items of [d]. *)
Definition copy_copy (l : loc) : SM loc :=
  (let* d := dict_read l in
   λ σ, let l' := fresh (dom σ) in (Ret l', <[l' := d]> σ))%st.

(** [dst.update(src)]: the items of [src] are written into the object [dst],
    over its own. *)
Definition dict_update (dst src : loc) : SM unit :=
  (let* d := dict_read dst in
   let* s := dict_read src in
   λ σ, (Ret tt, <[dst := s ∪ d]> σ))%st.

(** The location of the module-level [meta_equivalences]. *)
Definition meta_equivalences_loc : loc := 1%positive.

(** The contents [meta_equivalences] is created with. *)
Definition meta_equivalences : gmap string string :=
  list_to_map [
    ("og:type", "type");
    ("og:title", "title");
    ("og:url", "url");
    ("description", "abstract");
    ("citation_doi", "doi");
    ("citation_firstpage", "firstpage");
    ("citation_lastpage", "lastpage");
    ("citation_fulltext_html_url", "url");
    ("citation_pdf_url", "pdf_url");
    ("citation_issn", "issn");
    ("citation_issue", "issue");
    ("citation_journal_abbrev", "journal_abbrev");
    ("citation_journal_title", "journal");
    ("citation_language", "language");
    ("citation_online_date", "online_date");
    ("citation_publication_date", "publication_date");
    ("citation_publisher", "publisher");
    ("citation_title", "title");
    ("citation_volume", "volume");
    ("dc.publisher", "publisher");
    ("dc.date", "date");
    ("dc.language", "language");
    ("dc.subject", "subject");
    ("dc.title", "title");
    ("keywords", "keywords");
    ("dc.type", "type");
    ("dc.description", "description")
  ].

(** The location of the [dict()] that is the default value of
    [extra_equivalences]; it is created once, when the function is defined. *)
Definition default_extra_loc : loc := 2%positive.

(** The store when the module has just been loaded. *)
Definition initial_store : store :=
  <[ default_extra_loc := ∅ ]> {[ meta_equivalences_loc := meta_equivalences ]}.

(** ** parse_meta_headers *)

(** [meta.attrs.get('name') or meta.attrs.get('property')] *)
Definition mname_of (m : element) : option string :=
  match attr_get m "name" with
  | Some n => if Str.truthy n then Some n else attr_get m "property"
  | None => attr_get m "property"
  end.

(** One turn of the loop over the [<meta>] elements. *)
Definition scan_step (equivalences : gmap string string)
    (data : gmap string value) (m : element) : gmap string value :=
  match mname_of m with
  | Some n =>
      if Str.truthy n then
        match equivalences !! Str.lower n with
        | Some field => <[field := of_option (attr_get m "content")]> data
        | None => data
        end
      else data
  | None => data
  end.

Definition scan_metas (equivalences : gmap string string) (metas : list element)
    : gmap string value :=
  foldl (scan_step equivalences) ∅ metas.

Section ParseMetaHeaders.

(** [papis.document.author_list_to_author], the formatting collaborator. *)
Variable author_list_to_author : gmap string value → string.

Definition add_authors (data : gmap string value) (author_list : list author)
    : gmap string value :=
  match author_list with
  | [] => data
  | _ :: _ =>
      let data1 := <["author_list" := VAuthorList author_list]> data in
      <["author" := VStr (author_list_to_author data1)]> data1
  end.

(** [extra_equivalences] is the location of the caller's dictionary (or of
    the shared default [dict()]). *)
Definition parse_meta_headers (doc : soup) (extra_equivalences : loc)
    : SM (gmap string value) :=
  (let* equivalences := copy_copy meta_equivalences_loc in
   run dict_update equivalences extra_equivalences in
   let* eqs := dict_read equivalences in
   let metas := find_all "meta" [] doc in
   let data := scan_metas eqs metas in
   let* author_list := slift (parse_meta_authors doc) in
   sret (add_authors data author_list))%st.

End ParseMetaHeaders.

(** ** The Downloader base class *)

Definition bytes : Type := list Byte.byte.

(** Truth value of a [bytes] object. *)
Definition bytes_truthy (b : bytes) : bool :=
  match b with [] => false | _ :: _ => true end.

(** Truth value of an attribute that holds [None] or a string / a byte
    string. *)
Definition truthy_str (o : option string) : bool :=
  match o with Some s => Str.truthy s | None => false end.

Definition truthy_bytes (o : option bytes) : bool :=
  match o with Some b => bytes_truthy b | None => false end.

(** [self.expected_document_extension]: [None], one tag, or a list of tags. *)
Inductive extension_config : Type :=
  | ExtNone
  | ExtTag (tag : string)
  | ExtList (tags : list string).

(** What the base class does to the outside, most recent first. *)
Inductive event : Type :=
  | EvGet (url : string)
  | EvMktemp (path : string)
  | EvWrite (path : string) (content : bytes).

Definition is_get (ev : event) : bool :=
  match ev with EvGet _ => true | _ => false end.

(** The four methods a site-specific downloader overrides. They act on the
    outside world (the site, the network) only. In [get_data], [None] stands
    for a returned object that is not a [dict]. *)
Class Hooks (World Value : Type) : Type := {
  get_bibtex_url : World → outcome (option string) * World;
  get_document_url : World → outcome (option string) * World;
  get_data : World → outcome (option (gmap string Value)) * World;
  get_doi : World → outcome Value * World;
}.

(** The collaborators of the base class: the HTTP session, [bytes.decode],
    [papis.bibtex.bibtex_to_dict], [filetype.guess] (the extension of the
    guessed kind), [tempfile.mktemp] and writing a file. *)
Class Collaborators (World Value : Type) : Type := {
  session_get : string → World → outcome bytes * World;
  decode : bytes → outcome string;
  bibtex_to_dict : string → outcome (list (gmap string Value));
  guess : option bytes → option string;
  mktemp : World → string * World;
  write_file : string → bytes → World → outcome unit * World;
}.

(** The methods of [Downloader] as written: every hook raises
    [NotImplementedError]. *)
Definition base_hooks (World Value : Type) : Hooks World Value := {|
  get_bibtex_url w := (Raise NotImplementedError, w);
  get_document_url w := (Raise NotImplementedError, w);
  get_data w := (Raise NotImplementedError, w);
  get_doi w := (Raise NotImplementedError, w);
|}.

Section Downloader.

Context {World Value : Type}.
Context {hooks : Hooks World Value} {collab : Collaborators World Value}.

(** A downloader instance with its context, and the outside world. *)
Record state : Type := State {
  world : World;
  ctx_data : gmap string Value;
  ctx_files : list string;
  expected_document_extension : extension_config;
  bibtex_data : option string;
  document_data : option bytes;
  trace : list event;
}.

Abbreviation DM := (ST state).

Definition with_world (w : World) (s : state) : state :=
  State w (ctx_data s) (ctx_files s) (expected_document_extension s)
    (bibtex_data s) (document_data s) (trace s).

Definition with_ctx_data (d : gmap string Value) (s : state) : state :=
  State (world s) d (ctx_files s) (expected_document_extension s)
    (bibtex_data s) (document_data s) (trace s).

Definition with_ctx_files (f : list string) (s : state) : state :=
  State (world s) (ctx_data s) f (expected_document_extension s)
    (bibtex_data s) (document_data s) (trace s).

Definition with_bibtex_data (b : option string) (s : state) : state :=
  State (world s) (ctx_data s) (ctx_files s) (expected_document_extension s)
    b (document_data s) (trace s).

Definition with_document_data (b : option bytes) (s : state) : state :=
  State (world s) (ctx_data s) (ctx_files s) (expected_document_extension s)
    (bibtex_data s) b (trace s).

Definition with_trace (t : list event) (s : state) : state :=
  State (world s) (ctx_data s) (ctx_files s) (expected_document_extension s)
    (bibtex_data s) (document_data s) t.

(** Calling something that acts on the world. *)
Definition call {A} (f : World → outcome A * World) : DM A :=
  λ s, let (r, w) := f (world s) in (r, with_world w s).

Definition log (ev : event) : DM unit :=
  λ s, (Ret tt, with_trace (ev :: trace s) s).

(** [self.session.get(url, cookies=self.cookies).content] *)
Definition http_get (url : string) : DM bytes :=
  (run log (EvGet url) in call (session_get url))%st.

(** [self.ctx.data.update(d)] *)
Definition ctx_update (d : gmap string Value) : DM unit :=
  λ s, (Ret tt, with_ctx_data (d ∪ ctx_data s) s).

(** [self.ctx.data[k] = v] *)
Definition ctx_setitem (k : string) (v : Value) : DM unit :=
  λ s, (Ret tt, with_ctx_data (<[k := v]> (ctx_data s)) s).

(** [self.ctx.files.append(p)] *)
Definition ctx_append (p : string) : DM unit :=
  λ s, (Ret tt, with_ctx_files (ctx_files s ++ [p]) s).

(** The value a download method returns ([False] or [None]) is never
    looked at, so the methods return nothing here. *)
Definition download_bibtex : DM unit :=
  (let* url := call get_bibtex_url in
   if negb (truthy_str url) then sret tt
   else
     let* content := http_get (default "" url) in
     let* text := slift (decode content) in
     λ s, (Ret tt, with_bibtex_data (Some text) s))%st.

Definition get_bibtex_data : DM (option string) :=
  (run (λ s, if negb (truthy_str (bibtex_data s)) then download_bibtex s
             else (Ret tt, s)) in
   λ s, (Ret (bibtex_data s), s))%st.

Definition download_document : DM unit :=
  (let* url := call get_document_url in
   if negb (truthy_str url) then sret tt
   else
     let* content := http_get (default "" url) in
     λ s, (Ret tt, with_document_data (Some content) s))%st.

Definition get_document_data : DM (option bytes) :=
  (run (λ s, if negb (truthy_bytes (document_data s)) then download_document s
             else (Ret tt, s)) in
   λ s, (Ret (document_data s), s))%st.

(** [print_warning] only logs. When the configured expectation is a list,
    [expected_document_extensions] is never assigned and reading it raises
    [UnboundLocalError]. *)
Definition check_document_format : DM bool :=
  λ s,
    match expected_document_extension s with
    | ExtNone => (Ret true, s)
    | expected =>
        (let* data := get_document_data in
         match guess data with
         | None => sret false
         | Some extension =>
             match expected with
             | ExtTag tag => sret (bool_decide (extension ∈ [tag]))
             | _ => sraise UnboundLocalError
             end
         end)%st s
    end.

(** The four stages of [fetch], one per [try] statement. *)
Definition data_stage : DM unit :=
  try_not_implemented
    (let* data := call get_data in
     match data with
     | Some d => sret d
     | None => sraise AssertionError
     end)%st
    ctx_update.

Definition bibtex_stage : DM unit :=
  try_not_implemented download_bibtex
    (λ _,
       let* bib_rawdata := get_bibtex_data in
       if truthy_str bib_rawdata then
         let* datalist := slift (bibtex_to_dict (default "" bib_rawdata)) in
         match datalist with
         | entry :: _ => ctx_update entry
         | [] => sret tt
         end
       else sret tt)%st.

Definition doi_stage : DM unit :=
  try_not_implemented (call get_doi) (ctx_setitem "doi").

Definition save_document (doc_rawdata : bytes) : DM unit :=
  (let* tmp := call (λ w, let (p, w') := mktemp w in (Ret p, w')) in
   run log (EvMktemp tmp) in
   run log (EvWrite tmp doc_rawdata) in
   run call (write_file tmp doc_rawdata) in
   ctx_append tmp)%st.

Definition document_stage : DM unit :=
  try_not_implemented download_document
    (λ _,
       let* doc_rawdata := get_document_data in
       if truthy_bytes doc_rawdata then
         let* ok := check_document_format in
         if ok then save_document (default [] doc_rawdata) else sret tt
       else sret tt)%st.

Definition fetch : DM unit :=
  (run data_stage in
   run bibtex_stage in
   run doi_stage in
   document_stage)%st.

(** A newly constructed downloader bound to the context [(data, files)]. *)
Definition new_downloader (w : World) (data : gmap string Value)
    (files : list string) (expected : extension_config) : state :=
  State w data files expected None None [].

End Downloader.

Arguments state : clear implicits.

(** What it means for the record [r] to be built from the author element [a]
    and the affiliation sequence [affl]: the given name is the first piece of
    the split full name, the family name the other pieces joined by one
    space. *)
Definition record_of (a : element) (affl : list affiliation_rec) (r : author)
    : Prop :=
  ∃ fullname rest,
    attr_get a "content" = Some fullname
    ∧ Str.re_split fullname = given r :: rest
    ∧ family r = Str.join " " rest
    ∧ affiliation r = affl.

(** A step of the downloader that leaves the context and the configuration
    alone and, to the outside, only issues HTTP requests. *)
Definition quiet {World Value} (s s' : state World Value) : Prop :=
  ctx_data s' = ctx_data s
  ∧ ctx_files s' = ctx_files s
  ∧ expected_document_extension s' = expected_document_extension s
  ∧ ∃ evs, trace s' = evs ++ trace s ∧ forallb is_get evs = true.

(** ** Sample sites

    The world of the samples is the number of requests the site has served;
    values of the context are strings. *)

Definition pdf_bytes : bytes := String.list_byte_of_string "%PDF-1.4 body".
Definition epub_bytes : bytes := String.list_byte_of_string "PK epub body".
Definition bib_bytes : bytes := String.list_byte_of_string "@article{key}".

Definition site (url : string) : bytes :=
  if bool_decide (url = "http://site/cite.bib") then bib_bytes
  else if bool_decide (url = "http://site/paper.pdf") then pdf_bytes
  else if bool_decide (url = "http://site/paper.epub") then epub_bytes
  else [].

(** Sniffing by the first bytes. *)
Definition sample_guess (data : option bytes) : option string :=
  match data with
  | Some (Byte.x25 :: Byte.x50 :: Byte.x44 :: Byte.x46 :: _) => Some "pdf"
  | Some (Byte.x50 :: Byte.x4b :: _) => Some "epub"
  | _ => None
  end.

Definition sample_entry : gmap string string :=
  {[ "title" := "From bibtex"; "doi" := "10.1/bibtex" ]}.

Definition sample_collab : Collaborators nat string := {|
  session_get url w := (Ret (site url), S w);
  decode b := Ret (String.string_of_list_byte b);
  bibtex_to_dict raw := Ret [sample_entry];
  guess := sample_guess;
  mktemp w := ("/tmp/tmp0", w);
  write_file path content w := (Ret tt, w);
|}.

Definition sample_data : gmap string string :=
  {[ "title" := "From data"; "year" := "2020" ]}.

(** A downloader that implements everything. *)
Definition full_hooks : Hooks nat string := {|
  get_bibtex_url w := (Ret (Some "http://site/cite.bib"), w);
  get_document_url w := (Ret (Some "http://site/paper.pdf"), w);
  get_data w := (Ret (Some sample_data), w);
  get_doi w := (Ret "10.1/doi", w);
|}.

(** A downloader that implements [get_doi] only. *)
Definition doi_only_hooks : Hooks nat string := {|
  get_bibtex_url w := (Raise NotImplementedError, w);
  get_document_url w := (Raise NotImplementedError, w);
  get_data w := (Raise NotImplementedError, w);
  get_doi w := (Ret "10.1/doi", w);
|}.

(** A downloader whose document is an EPUB. *)
Definition epub_hooks : Hooks nat string := {|
  get_bibtex_url w := (Raise NotImplementedError, w);
  get_document_url w := (Ret (Some "http://site/paper.epub"), w);
  get_data w := (Raise NotImplementedError, w);
  get_doi w := (Raise NotImplementedError, w);
|}.

(** A downloader whose bibtex and document URLs answer with an empty body. *)
Definition empty_hooks : Hooks nat string := {|
  get_bibtex_url w := (Ret (Some "http://site/empty.bib"), w);
  get_document_url w := (Ret (Some "http://site/empty.pdf"), w);
  get_data w := (Raise NotImplementedError, w);
  get_doi w := (Raise NotImplementedError, w);
|}.

Definition fresh_state (expected : extension_config) : state nat string :=
  new_downloader 0 ∅ [] expected.

(** A downloader that holds the PDF of the sample site in its cache. *)
Definition pdf_cached (expected : extension_config) : state nat string :=
  State 1 ∅ [] expected None (Some pdf_bytes) [EvGet "http://site/paper.pdf"].

(** ** Sample documents *)

(** A [<meta>] element with the given attributes. *)
Definition meta_tag (l : list (string * string)) : element :=
  Element "meta" (list_to_map l).

Definition jane : element :=
  meta_tag [("name", "citation_author"); ("content", "Jane Q. Public")].

Definition prince : element :=
  meta_tag [("name", "citation_author"); ("content", "Prince")].

Definition mit : element :=
  meta_tag [("name", "citation_author_institution"); ("content", "MIT")].

Definition eth : element :=
  meta_tag [("name", "citation_author_institution"); ("content", "ETH")].

(** A [citation_author] element without [content]. *)
Definition anonymous : element := meta_tag [("name", "citation_author")].

(** A [citation_title] element without [content]. *)
Definition untitled : element := meta_tag [("name", "citation_title")].

(** An author formatter for the samples. *)
Definition no_format : gmap string value → string := λ _, "".

(** A caller's [extra_equivalences] that renames the field of [citation_title],
    at location 3 of [sample_store]. *)
Definition sample_extra : gmap string string :=
  {[ "citation_title" := "headline" ]}.

Definition sample_store : store := <[ 3%positive := sample_extra ]> initial_store.

Definition headline : element :=
  meta_tag [("name", "Citation_Title"); ("content", "On Maps")].

(** ** Notions used to state further properties *)

(** The entries of a table whose key is in lower case. *)
Definition lowercase_keys (eqs : gmap string string) : gmap string string :=
  filter (λ kv, Str.lower kv.1 = kv.1) eqs.

(** The author elements [parse_meta_authors] reads: all of them without
    institutions, as many as there are institutions otherwise ([zip] stops
    at the shorter list). *)
Definition processed_authors (doc : soup) : list element :=
  match affs_of doc with
  | [] => authors_of doc
  | affs => take (length affs) (authors_of doc)
  end.

(** The element [m] is a [<meta>] whose identifier is looked up under [k]. *)
Definition identified_as (m : element) (k : string) : Prop :=
  tag_name m = "meta"
  ∧ ∃ n, mname_of m = Some n ∧ Str.truthy n = true ∧ Str.lower n = k.

(** The HTTP requests among some events. *)
Definition requests (evs : list event) : nat :=
  length (List.filter is_get evs).

(** The temporary files named among some events. *)
Definition temp_files (evs : list event) : nat :=
  length (List.filter (λ ev, match ev with EvMktemp _ => true | _ => false end)
            evs).

(** A caller's table that sends the identifier [author] to the field
    [author_list], and an element with that identifier. *)
Definition author_renaming_store : store :=
  <[ 3%positive := {[ "author" := "author_list" ]} ]> initial_store.

Definition overridden_author : element :=
  meta_tag [("name", "Author"); ("content", "somebody")].

(** A step that leaves the context and the configuration alone and, to the
    outside, issues at most [n] HTTP requests and nothing else. *)
Definition within {World Value} (n : nat) (s s' : state World Value) : Prop :=
  ctx_data s' = ctx_data s
  ∧ ctx_files s' = ctx_files s
  ∧ expected_document_extension s' = expected_document_extension s
  ∧ ∃ evs, trace s' = evs ++ trace s
           ∧ forallb is_get evs = true ∧ length evs ≤ n.

(** A step that keeps every key of the data of the context, appends at most
    [nfiles] paths to its files, leaves the configuration alone, and issues
    at most [nreq] HTTP requests and names at most [nfiles] temporary
    files. *)
Definition grows {World Value} (nreq nfiles : nat) (s s' : state World Value)
    : Prop :=
  dom (ctx_data s) ⊆ dom (ctx_data s')
  ∧ (∃ new, ctx_files s' = ctx_files s ++ new ∧ length new ≤ nfiles)
  ∧ expected_document_extension s' = expected_document_extension s
  ∧ ∃ evs, trace s' = evs ++ trace s
           ∧ requests evs ≤ nreq ∧ temp_files evs ≤ nfiles.

(** A session whose requests time out. *)
Definition failing_collab : Collaborators nat string := {|
  session_get url w := (Raise (OtherError "timeout"), S w);
  decode b := Ret (String.string_of_list_byte b);
  bibtex_to_dict raw := Ret [sample_entry];
  guess := sample_guess;
  mktemp w := ("/tmp/tmp0", w);
  write_file path content w := (Ret tt, w);
|}.

(** A downloader that gives no URL, and one whose [get_data] does not return
    a dictionary. *)
Definition no_url_hooks : Hooks nat string := {|
  get_bibtex_url w := (Ret (Some ""), S w);
  get_document_url w := (Ret None, S w);
  get_data w := (Raise NotImplementedError, w);
  get_doi w := (Raise NotImplementedError, w);
|}.

Definition bad_data_hooks : Hooks nat string := {|
  get_bibtex_url w := (Raise NotImplementedError, w);
  get_document_url w := (Raise NotImplementedError, w);
  get_data w := (Ret None, w);
  get_doi w := (Ret "10.1/doi", w);
|}.

(** A downloader that implements [get_data] only. *)
Definition data_only_hooks : Hooks nat string := {|
  get_bibtex_url w := (Raise NotImplementedError, w);
  get_document_url w := (Raise NotImplementedError, w);
  get_data w := (Ret (Some sample_data), w);
  get_doi w := (Raise NotImplementedError, w);
|}.

(** A context the caller has already filled. *)
Definition filled_state : state nat string :=
  new_downloader 0 {[ "title" := "Mine"; "note" := "keep" ]} ["/old.pdf"]
    ExtNone.

(** A full name with U+2003 (em space) between its words. *)
Definition em_spaced_name : Text.text :=
  Text.of_string "Jane" ++ [8195%N] ++ Text.of_string "Q. Public".

(** * Properties *)

(** ** Splitting on whitespace *)

Module StrFacts.
Import Str.

Lemma append_cons (c : ascii) (a b : string) :
  String c a +:+ b = String c (a +:+ b).
Proof. reflexivity. Qed.

Lemma append_empty_l (s : string) : "" +:+ s = s.
Proof. reflexivity. Qed.

Lemma append_empty_r (s : string) : s +:+ "" = s.
Proof.
  induction s as [|c s IH]; [done|]. by rewrite append_cons, IH.
Qed.

Lemma append_assoc (a b c : string) : (a +:+ b) +:+ c = a +:+ (b +:+ c).
Proof.
  induction a as [|x a IH]; [done|]. by rewrite !append_cons, IH.
Qed.

(** Reading a piece without whitespace moves it into the current token. *)
Lemma re_split_go_token (t tok s : string) :
  no_space t = true →
  re_split_go false tok (t +:+ s) = re_split_go false (tok +:+ t) s.
Proof.
  revert tok. induction t as [|c t IH]; intros tok Ht.
  - by rewrite append_empty_l, append_empty_r.
  - simpl in Ht. apply andb_prop in Ht as [Hc Ht].
    apply negb_true_iff in Hc.
    rewrite append_cons. simpl. rewrite Hc.
    rewrite IH by done. by rewrite append_assoc, append_cons.
Qed.

(** Inside a separator the rest of the run is skipped. *)
Lemma re_split_go_run (sep tok s : string) :
  all_space sep = true →
  re_split_go true tok (sep +:+ s) = re_split_go true tok s.
Proof.
  induction sep as [|c sep IH]; intros Hsep; [done|].
  simpl in Hsep. apply andb_prop in Hsep as [Hc Hsep].
  rewrite append_cons. simpl. rewrite Hc. by apply IH.
Qed.

Lemma re_split_go_tight (tok s : string) :
  starts_tight s = true →
  re_split_go true tok s = re_split_go false tok s.
Proof.
  destruct s as [|c s]; simpl; [done|].
  intros Hc. apply negb_true_iff in Hc. by rewrite Hc.
Qed.

(** A first word, a separator, and what follows. *)
Lemma re_split_word (first sep rest : string) :
  no_space first = true →
  sep ≠ "" →
  all_space sep = true →
  starts_tight rest = true →
  re_split (first +:+ sep +:+ rest) = first :: re_split rest.
Proof.
  intros Hfirst Hne Hsep Hrest. unfold re_split.
  rewrite re_split_go_token, append_empty_l by done.
  destruct sep as [|c sep]; [done|].
  simpl in Hsep. apply andb_prop in Hsep as [Hc Hsep].
  rewrite append_cons. simpl. rewrite Hc.
  by rewrite re_split_go_run, re_split_go_tight.
Qed.

Lemma re_split_single (s : string) :
  no_space s = true → re_split s = [s].
Proof.
  intros Hs. unfold re_split.
  transitivity (re_split_go false "" (s +:+ "")).
  - by rewrite append_empty_r.
  - by rewrite re_split_go_token.
Qed.

Lemma re_split_go_nonempty (b : bool) (tok s : string) :
  re_split_go b tok s ≠ [].
Proof.
  revert b tok. induction s as [|c s IH]; intros b tok; simpl; [done|].
  destruct (is_space c); [destruct b|]; auto.
Qed.

Lemma no_space_snoc (tok : string) (c : ascii) :
  no_space tok = true → is_space c = false →
  no_space (tok +:+ String c "") = true.
Proof.
  intros Htok Hc. induction tok as [|x tok IH].
  - rewrite append_empty_l. simpl. by rewrite Hc.
  - simpl in Htok. apply andb_prop in Htok as [Hx Htok].
    rewrite append_cons. simpl. rewrite Hx. by apply IH.
Qed.

(** No piece contains whitespace. *)
Lemma re_split_go_pieces (b : bool) (tok s : string) :
  no_space tok = true →
  Forall (λ t, no_space t = true) (re_split_go b tok s).
Proof.
  revert b tok. induction s as [|c s IH]; intros b tok Htok; simpl.
  - by constructor.
  - destruct (is_space c) eqn:Hc.
    + destruct b; [by apply IH|]. constructor; [done|]. by apply IH.
    + apply IH. by apply no_space_snoc.
Qed.

Lemma re_split_pieces (s : string) :
  Forall (λ t, no_space t = true) (re_split s).
Proof. by apply re_split_go_pieces. Qed.

End StrFacts.

Example re_split_jane :
  Str.re_split "Jane Q.  Public" = ["Jane"; "Q."; "Public"].
Proof. reflexivity. Qed.

Example re_split_edges : Str.re_split " Jane " = [""; "Jane"; ""].
Proof. reflexivity. Qed.

Example re_split_empty : Str.re_split "" = [""].
Proof. reflexivity. Qed.

(** ** parse_meta_authors *)

Lemma omapM_Forall2 {A B} (f : A → outcome B) (l : list A) (l' : list B) :
  omapM f l = Ret l' ↔ Forall2 (λ x y, f x = Ret y) l l'.
Proof.
  revert l'. induction l as [|x l IH]; intros l'; simpl.
  - split.
    + intros [= <-]. constructor.
    + by intros ->%Forall2_nil_inv_l.
  - split.
    + destruct (f x) as [y|e] eqn:Hx; simpl; [|done].
      destruct (omapM f l) as [ys|e] eqn:Hl; simpl; [|done].
      intros [= <-]. constructor; [done|]. by apply IH.
    + intros (y & ys & Hy & Hys & ->)%Forall2_cons_inv_l.
      rewrite Hy. simpl. apply IH in Hys. by rewrite Hys.
Qed.

Lemma omapM_total {A B} (f : A → outcome B) (l : list A) :
  Forall (λ x, ∃ y, f x = Ret y) l → ∃ l', omapM f l = Ret l'.
Proof.
  induction 1 as [|x l [y Hy] _ [ys Hys]]; simpl.
  - by eexists.
  - rewrite Hy, Hys. by eexists.
Qed.

(** An author element that carries a [content] attribute gives a record. *)
Lemma author_of_tuple_total (a : element) (f : option element) :
  is_Some (attr_get a "content") → ∃ r, author_of_tuple (a, f) = Ret r.
Proof.
  intros [fullname Hc]. unfold author_of_tuple. simpl. rewrite Hc.
  destruct (Str.re_split fullname) as [|g rest] eqn:Hs.
  - by apply StrFacts.re_split_go_nonempty in Hs.
  - by eexists.
Qed.

Lemma author_of_tuple_record (a : element) (f : option element) (r : author) :
  author_of_tuple (a, f) = Ret r →
  record_of a
    match f with
    | Some i => [Affiliation (attr_get i "content")]
    | None => []
    end r.
Proof.
  unfold author_of_tuple, record_of. simpl.
  destruct (attr_get a "content") as [fullname|]; [|done].
  destruct (Str.re_split fullname) as [|g rest] eqn:Hs; [done|].
  intros [= <-]. by exists fullname, rest.
Qed.

(** *** Splitting a text of code points *)

Module TextFacts.
Import Text.
















End TextFacts.




Example split_name_jane :
  Text.split_name (Text.of_string "Jane Q. Public")
  = Ret (Text.of_string "Jane", Text.of_string "Q. Public").
Proof. reflexivity. Qed.

Example split_name_prince :
  Text.split_name (Text.of_string "Prince") = Ret (Text.of_string "Prince", []).
Proof. reflexivity. Qed.

(** U+3000 (ideographic space) and a run of U+00A0 and U+2009. *)
Example split_name_wide_spaces :
  Text.split_name
    (Text.of_string "A" ++ [12288%N] ++ Text.of_string "B"
     ++ [160%N; 8201%N] ++ Text.of_string "C")
  = Ret (Text.of_string "A", Text.of_string "B C").
Proof. reflexivity. Qed.

Example author_jane :
  parse_meta_authors [jane] = Ret [Author "Jane" "Q. Public" []].
Proof. reflexivity. Qed.

Example author_prince :
  parse_meta_authors [prince] = Ret [Author "Prince" "" []].
Proof. reflexivity. Qed.

Lemma omapM_lookup {A B} (f : A → outcome B) (l : list A) (l' : list B)
    (i : nat) (x : A) :
  omapM f l = Ret l' → l !! i = Some x → ∃ y, l' !! i = Some y ∧ f x = Ret y.
Proof.
  intros Hl Hx. apply omapM_Forall2 in Hl.
  by apply (Forall2_lookup_l _ _ _ i x) in Hl.
Qed.

Lemma omapM_length {A B} (f : A → outcome B) (l : list A) (l' : list B) :
  omapM f l = Ret l' → length l' = length l.
Proof. intros Hl%omapM_Forall2. symmetry. by eapply Forall2_length. Qed.

Lemma fst_zip_take {A B} (l : list A) (k : list B) :
  (zip l k).*1 = take (length k) l.
Proof.
  revert k. induction l as [|x l IH]; intros [|y k]; simpl; [done..|].
  by rewrite IH.
Qed.

(** C5, as the code has it: when every author element that is read carries
    a content attribute (all of them without institutions, the first
    len(institutions) of them otherwise), parse_meta_authors pairs author i
    with institution i up to the length of the shorter list when both lists
    are non-empty, gives one record without affiliation per author when
    there are only authors, and the empty sequence when there is no author
    element; the records follow the document order. *)
Theorem authors_paired (doc : soup) :
  Forall (λ a, is_Some (attr_get a "content")) (processed_authors doc) →
  ∃ l, parse_meta_authors doc = Ret l
    ∧ (authors_of doc = [] → l = [])
    ∧ (authors_of doc ≠ [] → affs_of doc = [] →
       length l = length (authors_of doc)
       ∧ ∀ i a, authors_of doc !! i = Some a →
           ∃ r, l !! i = Some r ∧ record_of a [] r)
    ∧ (authors_of doc ≠ [] → affs_of doc ≠ [] →
       length l = length (authors_of doc) `min` length (affs_of doc)
       ∧ ∀ i a f, authors_of doc !! i = Some a → affs_of doc !! i = Some f →
           ∃ r, l !! i = Some r
                ∧ record_of a [Affiliation (attr_get f "content")] r).
Proof.
  unfold processed_authors, parse_meta_authors.
  destruct (authors_of doc) as [|a0 authors] eqn:Hauthors.
  { intros _. exists []. destruct (affs_of doc); split_and!; done. }
  destruct (affs_of doc) as [|f0 affs] eqn:Haffs; intros Hcontent.
  - destruct (omapM_total author_of_tuple ((λ a, (a, None)) <$> a0 :: authors))
      as [l Hl].
    { apply Forall_fmap. eapply Forall_impl; [exact Hcontent|].
      intros a Ha. by apply author_of_tuple_total. }
    exists l. split_and!; [done..| |done].
    intros _ _. split.
    + apply omapM_length in Hl. by rewrite length_fmap in Hl.
    + intros i a Hi.
      destruct (omapM_lookup _ _ _ i (a, None) Hl) as (r & Hr & Hrec).
      { by rewrite list_lookup_fmap, Hi. }
      exists r. split; [done|]. by apply author_of_tuple_record in Hrec.
  - destruct (omapM_total author_of_tuple
                ((λ p, (p.1, Some p.2)) <$> zip (a0 :: authors) (f0 :: affs)))
      as [l Hl].
    { rewrite <- fst_zip_take in Hcontent.
      apply Forall_fmap, Forall_forall. intros [a f] Hin. simpl.
      apply author_of_tuple_total.
      apply (proj1 (Forall_forall _ _) Hcontent).
      by apply (list_elem_of_fmap_2 fst _ (a, f)). }
    exists l. split_and!; [done..|].
    intros _ _. split.
    + apply omapM_length in Hl. by rewrite length_fmap, length_zip in Hl.
    + intros i a f Hi Hf.
      destruct (omapM_lookup _ _ _ i (a, Some f) Hl) as (r & Hr & Hrec).
      { rewrite list_lookup_fmap.
        by rewrite (proj2 (lookup_zip_Some _ _ i a f) (conj Hi Hf)). }
      exists r. split; [done|]. by apply author_of_tuple_record in Hrec.
Qed.

Lemma authors_paired_sample :
  ∃ l, parse_meta_authors [jane; mit; anonymous] = Ret l ∧ length l = 1.
Proof.
  destruct (authors_paired [jane; mit; anonymous])
    as (l & Hl & _ & _ & Hboth).
  - repeat constructor; eexists; reflexivity.
  - exists l. split; [exact Hl|].
    apply Hboth; intros H; discriminate H.
Defined.

(** With only authors, an author element without content gives no record
    at all: the call raises. *)
Lemma lone_author_without_content :
  ¬ (authors_of [anonymous] ≠ [] → affs_of [anonymous] = [] →
     ∃ l, parse_meta_authors [anonymous] = Ret l
          ∧ length l = length (authors_of [anonymous])).
Proof.
  intros H. destruct H as (l & Hl & _).
  - intros Hnil. discriminate Hnil.
  - reflexivity.
  - discriminate Hl.
Qed.

Example authors_two_two :
  parse_meta_authors [jane; mit; prince; eth]
  = Ret [Author "Jane" "Q. Public" [Affiliation (Some "MIT")];
         Author "Prince" "" [Affiliation (Some "ETH")]].
Proof. reflexivity. Qed.

Example authors_two_none :
  parse_meta_authors [jane; prince]
  = Ret [Author "Jane" "Q. Public" []; Author "Prince" "" []].
Proof. reflexivity. Qed.

Example authors_truncated :
  parse_meta_authors [jane; mit; prince]
  = Ret [Author "Jane" "Q. Public" [Affiliation (Some "MIT")]].
Proof. reflexivity. Qed.

Example authors_none : parse_meta_authors [mit; eth] = Ret [].
Proof. reflexivity. Qed.

(** Without [content] on an author element, [re.split] is given [None]. *)
Example authors_missing_content :
  parse_meta_authors [anonymous] = Raise TypeError.
Proof. reflexivity. Qed.

(** ** parse_meta_headers *)

Section ParseMetaHeadersFacts.

Variable author_list_to_author : gmap string value → string.

Lemma fresh_loc_unused (σ : store) : σ !! fresh (dom σ) = None.
Proof. apply not_elem_of_dom, is_fresh. Qed.

(** The store after a call: the store before, possibly with one new object
    (the copy). *)
Lemma parse_meta_headers_store (doc : soup) (extra : loc) (σ : store) :
  let σ' := (parse_meta_headers author_list_to_author doc extra σ).2 in
  σ' = σ ∨ ∃ d, σ' = <[fresh (dom σ) := d]> σ.
Proof.
  unfold parse_meta_headers, copy_copy, dict_update, dict_read, sbind,
    slift, sret. simpl.
  destruct (σ !! meta_equivalences_loc) as [tbl|]; [|by left].
  rewrite lookup_insert_eq.
  destruct (<[fresh (dom σ):=tbl]> σ !! extra) as [ex|]; [|by right; eexists].
  rewrite lookup_insert_eq, insert_insert_eq.
  destruct (parse_meta_authors doc); right; by eexists.
Qed.

(** The result of a call from a store that holds the two dictionaries. *)
Lemma parse_meta_headers_result (doc : soup) (extra : loc) (σ : store)
    (tbl ex : gmap string string) :
  σ !! meta_equivalences_loc = Some tbl →
  σ !! extra = Some ex →
  parse_meta_headers author_list_to_author doc extra σ
  = (obind (parse_meta_authors doc)
       (λ al, Ret (add_authors author_list_to_author
                     (scan_metas (ex ∪ tbl) (find_all "meta" [] doc)) al)),
     <[fresh (dom σ) := ex ∪ tbl]> σ).
Proof.
  intros Htbl Hex.
  unfold parse_meta_headers, copy_copy, dict_update, dict_read, sbind,
    slift, sret. simpl.
  rewrite Htbl, lookup_insert_eq.
  assert (fresh (dom σ) ≠ extra) as Hne.
  { intros <-. by rewrite fresh_loc_unused in Hex. }
  rewrite lookup_insert_ne, Hex by done.
  rewrite lookup_insert_eq, insert_insert_eq.
  by destruct (parse_meta_authors doc).
Qed.

Lemma find_all_meta_app (pre post : soup) :
  find_all "meta" [] (pre ++ post)
  = find_all "meta" [] pre ++ find_all "meta" [] post.
Proof. unfold find_all. apply List.filter_app. Qed.

Lemma scan_step_keeps (eqs : gmap string string) (data : gmap string value)
    (m : element) (f : string) :
  is_Some (data !! f) → is_Some (scan_step eqs data m !! f).
Proof.
  intros Hf. unfold scan_step.
  destruct (mname_of m) as [n|]; [|done].
  destruct (Str.truthy n); [|done].
  destruct (eqs !! Str.lower n) as [g|]; [|done].
  destruct (decide (g = f)) as [->|Hne].
  - rewrite lookup_insert_eq. by eexists.
  - by rewrite lookup_insert_ne.
Qed.

Lemma scan_fold_keeps (eqs : gmap string string) (metas : list element)
    (data : gmap string value) (f : string) :
  is_Some (data !! f) → is_Some (foldl (scan_step eqs) data metas !! f).
Proof.
  revert data. induction metas as [|m metas IH]; intros data Hf; simpl.
  - done.
  - by apply IH, scan_step_keeps.
Qed.

(** The turn of an element whose identifier is in the table. *)
Lemma scan_step_match (eqs : gmap string string) (data : gmap string value)
    (m : element) (n f : string) :
  mname_of m = Some n → Str.truthy n = true → eqs !! Str.lower n = Some f →
  scan_step eqs data m = <[f := of_option (attr_get m "content")]> data.
Proof. intros Hn Ht Hf. unfold scan_step. by rewrite Hn, Ht, Hf. Qed.

End ParseMetaHeadersFacts.

(** C10: parse_meta_headers leaves the module-level meta_equivalences as it
    was, whatever extra_equivalences is; the overlay is written to a copy,
    and every dictionary that existed before the call keeps its contents. *)
Theorem meta_equivalences_untouched
    (author_list_to_author : gmap string value → string)
    (doc : soup) (extra : loc) (σ : store) :
  let σ' := (parse_meta_headers author_list_to_author doc extra σ).2 in
  σ' !! meta_equivalences_loc = σ !! meta_equivalences_loc ∧ σ ⊆ σ'.
Proof.
  intros σ'.
  assert (σ ⊆ σ') as Hsub.
  { destruct (parse_meta_headers_store author_list_to_author doc extra σ)
      as [Heq | [d Heq]]; fold σ' in Heq; rewrite Heq; [done|].
    apply insert_subseteq, fresh_loc_unused. }
  split; [|done].
  destruct (σ !! meta_equivalences_loc) as [tbl|] eqn:Htbl.
  - by apply (lookup_weaken _ _ _ _ Htbl).
  - subst σ'.
    unfold parse_meta_headers, copy_copy, dict_read, sbind. simpl.
    by rewrite Htbl.
Qed.

Example meta_equivalences_after_call :
  (parse_meta_headers no_format [headline; jane] 3%positive sample_store).2
    !! meta_equivalences_loc
  = Some meta_equivalences.
Proof. vm_compute. reflexivity. Qed.

Lemma find_all_meta_cons (m : element) (post : soup) :
  tag_name m = "meta" →
  find_all "meta" [] (m :: post) = m :: find_all "meta" [] post.
Proof.
  intros Hm. unfold find_all. simpl. by rewrite bool_decide_eq_true_2.
Qed.

(** C7: for a key of both the built-in table and extra_equivalences, the
    effective table (the copy the call works on) maps the key to the field
    of extra_equivalences, and a <meta> element with that identifier has its
    content stored under that field and not under the built-in one. *)
Theorem extra_equivalences_override
    (author_list_to_author : gmap string value → string)
    (σ : store) (extra : loc) (tbl ex : gmap string string)
    (k f0 f n : string) (pre post : soup) (m : element) (al : list author) :
  σ !! meta_equivalences_loc = Some tbl →
  σ !! extra = Some ex →
  tbl !! k = Some f0 →
  ex !! k = Some f →
  tag_name m = "meta" →
  mname_of m = Some n → Str.truthy n = true → Str.lower n = k →
  parse_meta_authors (pre ++ m :: post) = Ret al →
  let before := scan_metas (ex ∪ tbl) (find_all "meta" [] pre) in
  let out := parse_meta_headers author_list_to_author (pre ++ m :: post)
               extra σ in
  (∃ eqs, out.2 !! fresh (dom σ) = Some eqs ∧ eqs !! k = Some f)
  ∧ ∃ data, out.1 = Ret (add_authors author_list_to_author data al)
      ∧ is_Some (data !! f)
      ∧ (find_all "meta" [] post = [] →
         data !! f = Some (of_option (attr_get m "content"))
         ∧ (f0 ≠ f → data !! f0 = before !! f0)).
Proof.
  intros Htbl Hex Hk0 Hk Hm Hn Ht Hl Hal before out.
  assert ((ex ∪ tbl) !! k = Some f) as Heff by by apply lookup_union_Some_l.
  subst out. rewrite (parse_meta_headers_result _ _ _ _ tbl ex) by done.
  rewrite Hal. simpl. split.
  { exists (ex ∪ tbl). by rewrite lookup_insert_eq. }
  eexists. split; [reflexivity|].
  unfold scan_metas.
  rewrite find_all_meta_app, find_all_meta_cons, foldl_app by done. simpl.
  rewrite (scan_step_match _ _ m n f) by (by rewrite ?Hl).
  split.
  - apply scan_fold_keeps. rewrite lookup_insert_eq. by eexists.
  - intros ->. simpl. split.
    + by rewrite lookup_insert_eq.
    + intros Hne. by rewrite lookup_insert_ne.
Qed.

Lemma extra_equivalences_override_sample :
  ∃ data,
    (parse_meta_headers no_format [headline] 3%positive sample_store).1
    = Ret data
    ∧ data !! "headline" = Some (VStr "On Maps")
    ∧ data !! "title" = None.
Proof.
  destruct (extra_equivalences_override no_format sample_store 3%positive
              meta_equivalences sample_extra "citation_title" "title"
              "headline" "Citation_Title" [] [] headline [])
    as (_ & data & Hdata & _ & Hlast);
    [reflexivity..|].
  exists data. split; [exact Hdata|].
  destruct (Hlast eq_refl) as [Hf Hf0]. split; [exact Hf|].
  apply Hf0. intros H; discriminate H.
Defined.

Example extra_equivalences_sample_run :
  (parse_meta_headers no_format [headline] 3%positive sample_store).1
  = Ret {[ "headline" := VStr "On Maps" ]}.
Proof. vm_compute. reflexivity. Qed.

Example builtin_sample_run :
  (parse_meta_headers no_format [headline] default_extra_loc sample_store).1
  = Ret {[ "title" := VStr "On Maps" ]}.
Proof. vm_compute. reflexivity. Qed.

(** C9, as the code has it: the scan over the <meta> elements raises no
    error on missing attributes. An element without name and property, or
    whose identifier is not in the effective table, leaves the output
    mapping as it is; an element whose identifier is in the table and that
    has no content attribute is not skipped: None is stored under its field.
    parse_meta_headers returns the scanned mapping (completed with the
    authors) whenever parse_meta_authors returns. *)
Theorem meta_scan_tolerant
    (eqs : gmap string string) (data : gmap string value) (m : element) :
  (attr_get m "name" = None → attr_get m "property" = None →
   scan_step eqs data m = data)
  ∧ (∀ n, mname_of m = Some n → eqs !! Str.lower n = None →
       scan_step eqs data m = data)
  ∧ (∀ n f, mname_of m = Some n → Str.truthy n = true →
       eqs !! Str.lower n = Some f → attr_get m "content" = None →
       scan_step eqs data m = <[f := VNone]> data)
  ∧ (∀ fmt doc extra (σ : store) tbl ex al,
       σ !! meta_equivalences_loc = Some tbl → σ !! extra = Some ex →
       parse_meta_authors doc = Ret al →
       (parse_meta_headers fmt doc extra σ).1
       = Ret (add_authors fmt (scan_metas (ex ∪ tbl) (find_all "meta" [] doc))
                al)).
Proof.
  split_and!.
  - intros Hname Hprop. unfold scan_step, mname_of. by rewrite Hname, Hprop.
  - intros n Hn Hnone. unfold scan_step. rewrite Hn, Hnone.
    by destruct (Str.truthy n).
  - intros n f Hn Ht Hf Hc.
    rewrite (scan_step_match _ _ m n f) by done. by rewrite Hc.
  - intros fmt doc extra σ tbl ex al Htbl Hex Hal.
    rewrite (parse_meta_headers_result _ _ _ _ tbl ex) by done.
    by rewrite Hal.
Qed.

Lemma meta_scan_tolerant_sample :
  scan_step meta_equivalences ∅ untitled = {[ "title" := VNone ]}
  ∧ (parse_meta_headers no_format [untitled] default_extra_loc
       initial_store).1
    = Ret (scan_metas (∅ ∪ meta_equivalences) [untitled]).
Proof.
  destruct (meta_scan_tolerant meta_equivalences ∅ untitled)
    as (_ & _ & Hnone & Hret).
  split.
  - apply (Hnone "citation_title" "title"); reflexivity.
  - apply (Hret no_format [untitled] default_extra_loc initial_store
             meta_equivalences ∅ []); reflexivity.
Defined.

(** A matching element without content does contribute an entry. *)
Lemma missing_content_is_stored :
  ¬ (∀ data,
       (parse_meta_headers no_format [untitled] default_extra_loc
          initial_store).1 = Ret data →
       data !! "title" = None).
Proof.
  intros H.
  specialize (H {[ "title" := VNone ]}).
  assert ((parse_meta_headers no_format [untitled] default_extra_loc
             initial_store).1 = Ret {[ "title" := VNone ]}) as Hrun
    by (vm_compute; reflexivity).
  specialize (H Hrun). discriminate H.
Qed.

Example missing_content_run :
  (parse_meta_headers no_format [untitled] default_extra_loc initial_store).1
  = Ret {[ "title" := VNone ]}.
Proof. vm_compute. reflexivity. Qed.

(** A citation_author element without content makes the whole call raise. *)
Example missing_author_content_run :
  (parse_meta_headers no_format [anonymous] default_extra_loc initial_store).1
  = Raise TypeError.
Proof. vm_compute. reflexivity. Qed.

(** ** The Downloader *)

Section DownloaderFacts.

Context {World Value : Type}.
Context {hooks : Hooks World Value} {collab : Collaborators World Value}.

Implicit Types s : state World Value.

Lemma quiet_refl s : quiet s s.
Proof. unfold quiet. split_and!; [done..|]. by exists []. Qed.

Lemma quiet_trans s1 s2 s3 : quiet s1 s2 → quiet s2 s3 → quiet s1 s3.
Proof.
  intros (Hd1 & Hf1 & He1 & evs1 & Ht1 & Hg1)
         (Hd2 & Hf2 & He2 & evs2 & Ht2 & Hg2).
  unfold quiet. split_and!; [congruence..|].
  exists (evs2 ++ evs1). split.
  - by rewrite Ht2, Ht1, app_assoc.
  - by rewrite forallb_app, Hg1, Hg2.
Qed.

Lemma quiet_world s w : quiet s (with_world w s).
Proof. unfold quiet. simpl. split_and!; [done..|]. by exists []. Qed.

Lemma quiet_document_data s b : quiet s (with_document_data b s).
Proof. unfold quiet. simpl. split_and!; [done..|]. by exists []. Qed.

Lemma quiet_bibtex_data s b : quiet s (with_bibtex_data b s).
Proof. unfold quiet. simpl. split_and!; [done..|]. by exists []. Qed.

Lemma http_get_quiet s url r s' : http_get url s = (r, s') → quiet s s'.
Proof.
  unfold http_get, sbind, log, call. simpl.
  destruct (session_get url (world s)) as [[content|e] w];
    intros [= <- <-]; (split_and!; [done..|]; by exists [EvGet url]).
Qed.

Lemma download_document_quiet s r s' :
  download_document s = (r, s') → quiet s s'.
Proof.
  unfold download_document, sbind, call, sret.
  destruct (get_document_url (world s)) as [[url|e] w]; simpl.
  - destruct (truthy_str url); simpl.
    + destruct (http_get _ _) as [[content|e] s1] eqn:Hget.
      * apply http_get_quiet in Hget. intros [= <- <-].
        eapply quiet_trans; [apply quiet_world | ].
        eapply quiet_trans; [exact Hget | apply quiet_document_data].
      * apply http_get_quiet in Hget. intros [= <- <-].
        eapply quiet_trans; [apply quiet_world | exact Hget].
    + intros [= <- <-]. apply quiet_world.
  - intros [= <- <-]. apply quiet_world.
Qed.

Lemma get_document_data_quiet s r s' :
  get_document_data s = (r, s') → quiet s s'.
Proof.
  unfold get_document_data, sbind.
  destruct (truthy_bytes (document_data s)); simpl.
  - intros [= <- <-]. apply quiet_refl.
  - destruct (download_document s) as [[[]|e] s1] eqn:Hdl;
      apply download_document_quiet in Hdl; by intros [= <- <-].
Qed.

Lemma check_document_format_quiet s r s' :
  check_document_format s = (r, s') → quiet s s'.
Proof.
  unfold check_document_format.
  destruct (expected_document_extension s) as [|tag|tags].
  - intros [= <- <-]. apply quiet_refl.
  - unfold sbind.
    destruct (get_document_data s) as [[data|e] s1] eqn:Hget;
      apply get_document_data_quiet in Hget; [|by intros [= <- <-]].
    destruct (guess data); by intros [= <- <-].
  - unfold sbind.
    destruct (get_document_data s) as [[data|e] s1] eqn:Hget;
      apply get_document_data_quiet in Hget; [|by intros [= <- <-]].
    destruct (guess data); by intros [= <- <-].
Qed.

Lemma save_document_data s doc r s' :
  save_document doc s = (r, s') → ctx_data s' = ctx_data s.
Proof.
  unfold save_document, sbind, call, log, ctx_append. simpl.
  destruct (mktemp (world s)) as [tmp w]. simpl.
  destruct (write_file tmp doc w) as [[[]|e] w']; by intros [= <- <-].
Qed.

(** The document stage never writes to the data of the context. *)
Lemma document_stage_data s r s' :
  document_stage s = (r, s') → ctx_data s' = ctx_data s.
Proof.
  unfold document_stage, try_not_implemented.
  destruct (download_document s) as [[[]|e] s1] eqn:Hdl;
    apply download_document_quiet in Hdl as (Hd1 & _).
  - unfold sbind.
    destruct (get_document_data s1) as [[doc|e] s2] eqn:Hget;
      apply get_document_data_quiet in Hget as (Hd2 & _);
      [|intros [= <- <-]; congruence].
    destruct (truthy_bytes doc); [|intros [= <- <-]; congruence].
    destruct (check_document_format s2) as [[ok|e] s3] eqn:Hck;
      apply check_document_format_quiet in Hck as (Hd3 & _);
      [|intros [= <- <-]; congruence].
    destruct ok; [|intros [= <- <-]; congruence].
    intros Hsave%save_document_data. congruence.
  - destruct e; by intros [= <- <-].
Qed.

(** C4: when the downloaded bytes fail check_document_format, the document
    stage of fetch returns without an error, appends nothing to the files of
    the context, leaves its data as they were, and neither names nor writes
    a temporary file (all it did to the outside are HTTP requests). *)
Theorem rejected_document_is_dropped s s1 s2 s3 (doc : option bytes) :
  download_document s = (Ret tt, s1) →
  get_document_data s1 = (Ret doc, s2) →
  truthy_bytes doc = true →
  check_document_format s2 = (Ret false, s3) →
  document_stage s = (Ret tt, s3)
  ∧ ctx_files s3 = ctx_files s
  ∧ ctx_data s3 = ctx_data s
  ∧ ∃ evs, trace s3 = evs ++ trace s ∧ forallb is_get evs = true.
Proof.
  intros Hdl Hget Hdoc Hck. split.
  - unfold document_stage, try_not_implemented, sbind.
    by rewrite Hdl, Hget, Hdoc, Hck.
  - apply download_document_quiet in Hdl.
    apply get_document_data_quiet in Hget.
    apply check_document_format_quiet in Hck.
    destruct (quiet_trans _ _ _ (quiet_trans _ _ _ Hdl Hget) Hck)
      as (Hd & Hf & _ & Hev).
    done.
Qed.

End DownloaderFacts.

Lemma rejected_document_sample :
  ∃ s3 : state nat string,
    @document_stage _ _ epub_hooks sample_collab (fresh_state (ExtTag "pdf"))
    = (Ret tt, s3)
    ∧ ctx_files s3 = [] ∧ ctx_data s3 = ∅.
Proof.
  pose (s0 := fresh_state (ExtTag "pdf")).
  pose (s1 := State 1 (∅ : gmap string string) [] (ExtTag "pdf") None
                (Some epub_bytes) [EvGet "http://site/paper.epub"]).
  destruct (@rejected_document_is_dropped _ _ epub_hooks sample_collab
              s0 s1 s1 s1 (Some epub_bytes))
    as (Hrun & Hfiles & Hdata & _); [reflexivity..|].
  exists s1. split; [exact Hrun|]. split; [exact Hfiles | exact Hdata].
Defined.

Section FetchFacts.

Context {World Value : Type}.
Context {hooks : Hooks World Value} {collab : Collaborators World Value}.

Implicit Types s : state World Value.

(** fetch returns exactly when its four stages return in turn. *)
Lemma fetch_stages s0 s4 :
  fetch s0 = (Ret tt, s4)
  ↔ ∃ s1 s2 s3,
      data_stage s0 = (Ret tt, s1) ∧ bibtex_stage s1 = (Ret tt, s2)
      ∧ doi_stage s2 = (Ret tt, s3) ∧ document_stage s3 = (Ret tt, s4).
Proof.
  unfold fetch, sbind. split.
  - destruct (data_stage s0) as [[[]|e1] s1] eqn:H1; [|done].
    destruct (bibtex_stage s1) as [[[]|e2] s2] eqn:H2; [|done].
    destruct (doi_stage s2) as [[[]|e3] s3] eqn:H3; [|done].
    intros Hdoc. by exists s1, s2, s3.
  - intros (s1 & s2 & s3 & -> & -> & -> & Hdoc). done.
Qed.

Lemma data_stage_unimplemented s :
  (get_data (world s)).1 = Raise NotImplementedError →
  data_stage s = (Ret tt, with_world (get_data (world s)).2 s).
Proof.
  unfold data_stage, try_not_implemented, sbind, call.
  destruct (get_data (world s)) as [r w]. simpl. by intros ->.
Qed.

Lemma download_bibtex_unimplemented s :
  (get_bibtex_url (world s)).1 = Raise NotImplementedError →
  download_bibtex s
  = (Raise NotImplementedError, with_world (get_bibtex_url (world s)).2 s).
Proof.
  unfold download_bibtex, sbind, call.
  destruct (get_bibtex_url (world s)) as [r w]. simpl. by intros ->.
Qed.

Lemma bibtex_stage_unimplemented s :
  (get_bibtex_url (world s)).1 = Raise NotImplementedError →
  bibtex_stage s = (Ret tt, with_world (get_bibtex_url (world s)).2 s).
Proof.
  intros H. unfold bibtex_stage, try_not_implemented.
  by rewrite download_bibtex_unimplemented.
Qed.

Lemma download_document_unimplemented s :
  (get_document_url (world s)).1 = Raise NotImplementedError →
  download_document s
  = (Raise NotImplementedError, with_world (get_document_url (world s)).2 s).
Proof.
  unfold download_document, sbind, call.
  destruct (get_document_url (world s)) as [r w]. simpl. by intros ->.
Qed.

Lemma document_stage_unimplemented s :
  (get_document_url (world s)).1 = Raise NotImplementedError →
  document_stage s = (Ret tt, with_world (get_document_url (world s)).2 s).
Proof.
  intros H. unfold document_stage, try_not_implemented.
  by rewrite download_document_unimplemented.
Qed.

Lemma doi_stage_implemented s doi w :
  get_doi (world s) = (Ret doi, w) →
  doi_stage s
  = (Ret tt, with_ctx_data (<["doi" := doi]> (ctx_data s)) (with_world w s)).
Proof.
  intros H. unfold doi_stage, try_not_implemented, call. by rewrite H.
Qed.

(** C3: a downloader that implements get_doi only, run on an empty context,
    leaves exactly the DOI in the data of the context and no file. *)
Theorem fetch_doi_only s doi w :
  (∀ w, (get_data w).1 = Raise NotImplementedError) →
  (∀ w, (get_bibtex_url w).1 = Raise NotImplementedError) →
  (∀ w, (get_document_url w).1 = Raise NotImplementedError) →
  ctx_data s = ∅ →
  ctx_files s = [] →
  get_doi (get_bibtex_url (get_data (world s)).2).2 = (Ret doi, w) →
  ∃ s', fetch s = (Ret tt, s')
        ∧ ctx_data s' = {[ "doi" := doi ]}
        ∧ ctx_files s' = [].
Proof.
  intros Hdata Hbib Hdoc Hempty Hfiles Hdoi.
  eexists. split.
  - apply fetch_stages. eexists _, _, _. split_and!.
    + apply data_stage_unimplemented, Hdata.
    + apply bibtex_stage_unimplemented, Hbib.
    + apply doi_stage_implemented. exact Hdoi.
    + apply document_stage_unimplemented, Hdoc.
  - simpl. by rewrite Hempty, Hfiles, insert_empty.
Qed.

(** C1: when fetch returns, a field set by both get_data and the bibtex
    stage holds the bibtex value, and the key doi holds the value of get_doi
    whenever get_doi is implemented, whatever the earlier stages wrote
    there. *)
Theorem fetch_precedence s0 s1 s2 s3 s4 :
  data_stage s0 = (Ret tt, s1) →
  bibtex_stage s1 = (Ret tt, s2) →
  doi_stage s2 = (Ret tt, s3) →
  document_stage s3 = (Ret tt, s4) →
  fetch s0 = (Ret tt, s4)
  ∧ (∀ d w1 sa raw sb entry rest k v1 v2,
       get_data (world s0) = (Ret (Some d), w1) →
       d !! k = Some v1 →
       download_bibtex s1 = (Ret tt, sa) →
       get_bibtex_data sa = (Ret raw, sb) →
       truthy_str raw = true →
       bibtex_to_dict (default "" raw) = Ret (entry :: rest) →
       entry !! k = Some v2 →
       ctx_data s1 !! k = Some v1
       ∧ ctx_data s2 !! k = Some v2
       ∧ ctx_data s4 !! k
         = Some match get_doi (world s2) with
                | (Ret doi, _) => if decide (k = "doi") then doi else v2
                | _ => v2
                end)
  ∧ (∀ doi w, get_doi (world s2) = (Ret doi, w) →
       ctx_data s4 !! "doi" = Some doi).
Proof.
  intros H1 H2 H3 H4.
  split; [apply fetch_stages; by exists s1, s2, s3|].
  pose proof (document_stage_data _ _ _ H4) as Hd4.
  split.
  - intros d w1 sa raw sb entry rest k v1 v2 Hgd Hk1 Hdl Hget Hraw Hparse Hk2.
    assert (ctx_data s1 !! k = Some v1) as Hs1.
    { revert H1. unfold data_stage, try_not_implemented, sbind, call.
      rewrite Hgd. simpl. intros [= <-]. simpl.
      by apply lookup_union_Some_l. }
    assert (ctx_data s2 !! k = Some v2) as Hs2.
    { revert H2. unfold bibtex_stage, try_not_implemented, sbind, slift.
      rewrite Hdl, Hget, Hraw, Hparse. intros [= <-]. simpl.
      by apply lookup_union_Some_l. }
    split_and!; [done..|].
    rewrite Hd4. revert H3. unfold doi_stage, try_not_implemented, call.
    destruct (get_doi (world s2)) as [[doi|e] w3].
    + intros [= <-]. simpl. case_decide as Hk.
      * subst k. by rewrite lookup_insert_eq.
      * by rewrite lookup_insert_ne.
    + destruct e; intros [= <-]; done.
  - intros doi w Hdoi. rewrite Hd4.
    rewrite (doi_stage_implemented _ _ _ Hdoi) in H3.
    injection H3 as <-. simpl. by rewrite lookup_insert_eq.
Qed.

End FetchFacts.

Lemma fetch_doi_only_sample :
  ∃ s', @fetch _ _ doi_only_hooks sample_collab (fresh_state ExtNone)
        = (Ret tt, s')
        ∧ ctx_data s' = {[ "doi" := "10.1/doi" ]}
        ∧ ctx_files s' = [].
Proof.
  apply (@fetch_doi_only _ _ doi_only_hooks sample_collab
           (fresh_state ExtNone) "10.1/doi" 0);
    first [reflexivity | intros w; reflexivity].
Defined.

Lemma fetch_precedence_sample :
  ∃ s4, @fetch _ _ full_hooks sample_collab (fresh_state (ExtTag "pdf"))
        = (Ret tt, s4)
        ∧ ctx_data s4 !! "title" = Some "From bibtex"
        ∧ ctx_data s4 !! "doi" = Some "10.1/doi".
Proof.
  pose (s0 := fresh_state (ExtTag "pdf")).
  pose (s1 := (data_stage (hooks:=full_hooks) s0).2).
  pose (s2 := (@bibtex_stage _ _ full_hooks sample_collab s1).2).
  pose (s3 := (doi_stage (hooks:=full_hooks) s2).2).
  pose (s4 := (@document_stage _ _ full_hooks sample_collab s3).2).
  pose (sa := (@download_bibtex _ _ full_hooks sample_collab s1).2).
  destruct (@fetch_precedence _ _ full_hooks sample_collab s0 s1 s2 s3 s4)
    as (Hfetch & Hbib & Hdoi); [reflexivity..|].
  exists s4. split; [exact Hfetch|]. split.
  - destruct (Hbib sample_data 0 sa (Some "@article{key}") sa sample_entry []
                "title" "From data" "From bibtex")
      as (_ & _ & Hfinal); [reflexivity..|].
    exact Hfinal.
  - apply (Hdoi "10.1/doi" 1). reflexivity.
Defined.

Example fetch_full_run :
  let s4 := (@fetch _ _ full_hooks sample_collab
               (fresh_state (ExtTag "pdf"))).2 in
  ctx_data s4
  = {[ "title" := "From bibtex"; "year" := "2020"; "doi" := "10.1/doi" ]}
  ∧ ctx_files s4 = ["/tmp/tmp0"]
  ∧ trace s4 = [EvWrite "/tmp/tmp0" pdf_bytes; EvMktemp "/tmp/tmp0";
                EvGet "http://site/paper.pdf"; EvGet "http://site/cite.bib"].
Proof. vm_compute. done. Qed.

Section CacheFacts.

Context {World Value : Type}.
Context {hooks : Hooks World Value} {collab : Collaborators World Value}.

Implicit Types s : state World Value.

(** A cache that holds a non-empty value is returned as it is: nothing is
    requested and the instance does not change. *)
Lemma get_bibtex_data_cached s text :
  bibtex_data s = Some text → Str.truthy text = true →
  get_bibtex_data s = (Ret (Some text), s).
Proof.
  intros Hb Ht. unfold get_bibtex_data, sbind, truthy_str.
  rewrite Hb, Ht. simpl. by rewrite Hb.
Qed.

Lemma get_document_data_cached s content :
  document_data s = Some content → bytes_truthy content = true →
  get_document_data s = (Ret (Some content), s).
Proof.
  intros Hd Ht. unfold get_document_data, sbind, truthy_bytes.
  rewrite Hd, Ht. simpl. by rewrite Hd.
Qed.

Lemma check_document_format_unconfigured s :
  expected_document_extension s = ExtNone →
  check_document_format s = (Ret true, s).
Proof. intros H. unfold check_document_format. by rewrite H. Qed.

(** One configured tag: the check succeeds exactly when the sniffed tag is
    that tag, and fails without raising otherwise. *)
Lemma check_document_format_tag s tag content :
  expected_document_extension s = ExtTag tag →
  document_data s = Some content → bytes_truthy content = true →
  check_document_format s
  = (Ret match guess (Some content) with
         | Some extension => bool_decide (extension = tag)
         | None => false
         end, s).
Proof.
  intros He Hd Ht. unfold check_document_format. rewrite He.
  unfold sbind. rewrite (get_document_data_cached s content) by done.
  destruct (guess (Some content)) as [extension|]; [|done].
  unfold sret. do 2 f_equal.
  apply bool_decide_ext. rewrite list_elem_of_singleton. done.
Qed.

(** A configured list: nothing is sniffed out of the data means failure,
    anything else reaches the unassigned local. *)
Lemma check_document_format_list s tags content :
  expected_document_extension s = ExtList tags →
  document_data s = Some content → bytes_truthy content = true →
  check_document_format s
  = (match guess (Some content) with
     | Some _ => Raise UnboundLocalError
     | None => Ret false
     end, s).
Proof.
  intros He Hd Ht. unfold check_document_format. rewrite He.
  unfold sbind. rewrite (get_document_data_cached s content) by done.
  by destruct (guess (Some content)).
Qed.

End CacheFacts.

(** C2, at the input where the code departs from it: with a list of
    acceptable tags that contains the sniffed tag, check_document_format
    raises UnboundLocalError instead of returning True, and so does fetch. *)
Theorem list_expectation_raises :
  @check_document_format _ _ full_hooks sample_collab
    (pdf_cached (ExtList ["pdf"; "epub"]))
  = (Raise UnboundLocalError, pdf_cached (ExtList ["pdf"; "epub"]))
  ∧ (@fetch _ _ full_hooks sample_collab
       (fresh_state (ExtList ["pdf"; "epub"]))).1
    = Raise UnboundLocalError.
Proof. split; vm_compute; reflexivity. Qed.

Example tag_expectation_accepts :
  (@check_document_format _ _ full_hooks sample_collab
     (pdf_cached (ExtTag "pdf"))).1 = Ret true.
Proof. reflexivity. Qed.

Example tag_expectation_rejects :
  (@check_document_format _ _ full_hooks sample_collab
     (pdf_cached (ExtTag "epub"))).1 = Ret false.
Proof. reflexivity. Qed.

(** C8, at the input where the code departs from it: a download that
    answers with an empty body fills the cache with an empty value, and the
    next get_bibtex_data / get_document_data requests the URL again. *)
Theorem empty_download_is_repeated :
  let b1 := (@download_bibtex _ _ empty_hooks sample_collab
               (fresh_state ExtNone)).2 in
  let d1 := (@download_document _ _ empty_hooks sample_collab
               (fresh_state ExtNone)).2 in
  (bibtex_data b1 = Some ""
   ∧ trace b1 = [EvGet "http://site/empty.bib"]
   ∧ @get_bibtex_data _ _ empty_hooks sample_collab b1
     = (Ret (Some ""),
        with_world 2 (with_trace [EvGet "http://site/empty.bib";
                                  EvGet "http://site/empty.bib"] b1)))
  ∧ (document_data d1 = Some []
     ∧ trace d1 = [EvGet "http://site/empty.pdf"]
     ∧ @get_document_data _ _ empty_hooks sample_collab d1
       = (Ret (Some []),
          with_world 2 (with_trace [EvGet "http://site/empty.pdf";
                                    EvGet "http://site/empty.pdf"] d1))).
Proof. vm_compute. done. Qed.

(** * Further properties of the metadata extractor *)

Lemma lower_char_idempotent (c : ascii) :
  Str.lower_char (Str.lower_char c) = Str.lower_char c.
Proof. destruct c as [[] [] [] [] [] [] [] []]; vm_compute; reflexivity. Qed.

Lemma lower_idempotent (s : string) : Str.lower (Str.lower s) = Str.lower s.
Proof.
  induction s as [|c s IH]; simpl; [done|].
  by rewrite lower_char_idempotent, IH.
Qed.

Lemma lowercase_keys_lookup (eqs : gmap string string) (n : string) :
  lowercase_keys eqs !! Str.lower n = eqs !! Str.lower n.
Proof.
  unfold lowercase_keys.
  destruct (eqs !! Str.lower n) as [f|] eqn:Hf.
  - apply map_lookup_filter_Some. split; [done|]. simpl.
    apply lower_idempotent.
  - apply map_lookup_filter_None. by left.
Qed.

(** X1: identifiers are looked up in lower case, so an entry of the table
    whose key has a capital letter is never used: the scan gives the same
    mapping with and without such entries. Every key of the built-in table
    is in lower case. *)
Theorem capital_keys_are_dead (eqs : gmap string string)
    (metas : list element) :
  scan_metas eqs metas = scan_metas (lowercase_keys eqs) metas
  ∧ lowercase_keys meta_equivalences = meta_equivalences.
Proof.
  split.
  - unfold scan_metas. generalize (∅ : gmap string value).
    induction metas as [|m metas IH]; intros data; simpl; [done|].
    rewrite IH. f_equal. unfold scan_step.
    destruct (mname_of m) as [n|]; [|done].
    destruct (Str.truthy n); [|done].
    by rewrite lowercase_keys_lookup.
  - vm_compute. reflexivity.
Qed.

Lemma scan_step_other (eqs : gmap string string) (data : gmap string value)
    (m : element) (f : string) :
  (∀ n, mname_of m = Some n → Str.truthy n = true →
        eqs !! Str.lower n ≠ Some f) →
  scan_step eqs data m !! f = data !! f.
Proof.
  intros Hno. unfold scan_step.
  destruct (mname_of m) as [n|] eqn:Hn; [|done].
  destruct (Str.truthy n) eqn:Ht; [|done].
  destruct (eqs !! Str.lower n) as [g|] eqn:Hg; [|done].
  rewrite lookup_insert_ne; [done|].
  intros ->. by apply (Hno n).
Qed.

Lemma scan_fold_other (eqs : gmap string string) (metas : list element)
    (data : gmap string value) (f : string) :
  Forall (λ m, ∀ n, mname_of m = Some n → Str.truthy n = true →
                    eqs !! Str.lower n ≠ Some f) metas →
  foldl (scan_step eqs) data metas !! f = data !! f.
Proof.
  intros Hall. revert data.
  induction Hall as [|m metas Hm _ IH]; intros data; simpl; [done|].
  by rewrite IH, scan_step_other.
Qed.

(** X2: the last element that maps to a field decides its value: when a
    matching element is followed only by elements that map elsewhere (or
    nowhere), the field holds that element's content, whatever came
    before. *)
Theorem last_match_wins (eqs : gmap string string) (pre post : list element)
    (m : element) (n f : string) :
  mname_of m = Some n → Str.truthy n = true → eqs !! Str.lower n = Some f →
  Forall (λ m', ∀ n', mname_of m' = Some n' → Str.truthy n' = true →
                      eqs !! Str.lower n' ≠ Some f) post →
  scan_metas eqs (pre ++ m :: post) !! f
  = Some (of_option (attr_get m "content")).
Proof.
  intros Hn Ht Hf Hpost. unfold scan_metas.
  rewrite foldl_app. simpl.
  rewrite scan_fold_other by done.
  rewrite (scan_step_match _ _ m n f) by done.
  by rewrite lookup_insert_eq.
Qed.

Lemma last_match_wins_sample :
  scan_metas meta_equivalences
    [meta_tag [("name", "dc.title"); ("content", "Old")]; headline; jane]
    !! "title"
  = Some (VStr "On Maps").
Proof.
  apply (last_match_wins meta_equivalences
           [meta_tag [("name", "dc.title"); ("content", "Old")]] [jane]
           headline "Citation_Title" "title"); [reflexivity..|].
  repeat constructor. intros n' [= <-] _. vm_compute. discriminate.
Defined.

Lemma scan_fold_keys (eqs : gmap string string) (metas : list element)
    (data : gmap string value) (f : string) :
  is_Some (foldl (scan_step eqs) data metas !! f) →
  is_Some (data !! f) ∨ ∃ k, eqs !! k = Some f.
Proof.
  revert data. induction metas as [|m metas IH]; intros data; simpl.
  - by left.
  - intros [Hin | Hk]%IH; [|by right].
    unfold scan_step in Hin.
    destruct (mname_of m) as [n|]; [|by left].
    destruct (Str.truthy n); [|by left].
    destruct (eqs !! Str.lower n) as [g|] eqn:Hg; [|by left].
    destruct (decide (g = f)) as [->|Hne].
    + right. by exists (Str.lower n).
    + rewrite lookup_insert_ne in Hin by done. by left.
Qed.

(** X3: every key of the mapping parse_meta_headers returns is a field of
    the built-in table, a field of extra_equivalences, or one of author_list
    and author. *)
Theorem output_keys_come_from_tables
    (author_list_to_author : gmap string value → string)
    (doc : soup) (extra : loc) (σ : store) (tbl ex : gmap string string)
    (data : gmap string value) (f : string) :
  σ !! meta_equivalences_loc = Some tbl →
  σ !! extra = Some ex →
  (parse_meta_headers author_list_to_author doc extra σ).1 = Ret data →
  is_Some (data !! f) →
  f = "author_list" ∨ f = "author"
  ∨ (∃ k, ex !! k = Some f) ∨ (∃ k, tbl !! k = Some f).
Proof.
  intros Htbl Hex. rewrite (parse_meta_headers_result _ _ _ _ tbl ex) by done.
  simpl. destruct (parse_meta_authors doc) as [al|e]; simpl; [|done].
  intros [= <-] Hin.
  assert (is_Some (scan_metas (ex ∪ tbl) (find_all "meta" [] doc) !! f)
          → (∃ k, ex !! k = Some f) ∨ (∃ k, tbl !! k = Some f)) as Hscan.
  { intros [Hempty | [k Hk]]%scan_fold_keys.
    - rewrite lookup_empty in Hempty. by destruct Hempty.
    - apply lookup_union_Some_raw in Hk as [Hk | [_ Hk]]; eauto. }
  destruct al as [|a al]; simpl in Hin.
  { destruct (Hscan Hin) as [Hk | Hk]; auto. }
  destruct (decide (f = "author")) as [->|Hne1]; [by auto|].
  destruct (decide (f = "author_list")) as [->|Hne2]; [by auto|].
  rewrite !lookup_insert_ne in Hin by done.
  destruct (Hscan Hin) as [Hk | Hk]; auto.
Qed.

Lemma output_keys_sample :
  "headline" = "author_list" ∨ "headline" = "author"
  ∨ (∃ k, sample_extra !! k = Some "headline")
  ∨ (∃ k, meta_equivalences !! k = Some "headline").
Proof.
  apply (output_keys_come_from_tables no_format [headline; jane] 3%positive
           sample_store meta_equivalences sample_extra
           (<["author" := VStr ""]>
              (<["author_list" := VAuthorList [Author "Jane" "Q. Public" []]]>
                 {[ "headline" := VStr "On Maps" ]}))
           "headline").
  - reflexivity.
  - reflexivity.
  - vm_compute. reflexivity.
  - eexists. reflexivity.
Defined.

Lemma no_authors_no_records (doc : soup) :
  authors_of doc = [] → parse_meta_authors doc = Ret [].
Proof.
  intros H. unfold parse_meta_authors. rewrite H. by destruct (affs_of doc).
Qed.

Lemma identified_not_author (m : element) (k : string) :
  identified_as m k → k ≠ "citation_author" → authors_of [m] = [].
Proof.
  intros (_ & n & Hn & Ht & Hl) Hk.
  unfold authors_of, find_all, has_attrs. simpl.
  destruct (bool_decide (tag_name m = "meta")); [|done]. simpl.
  rewrite andb_true_r.
  rewrite bool_decide_eq_false_2; [done|].
  intros Hname. unfold mname_of in Hn. rewrite Hname in Hn. simpl in Hn.
  injection Hn as <-. by apply Hk.
Qed.

(** X4: every entry of the built-in table is reachable: a document whose
    only <meta> element carries the key of an entry as its identifier, in
    any mix of upper and lower case, as name or as property, gives the
    mapping with exactly the field of that entry, holding the content. *)
Theorem builtin_entry_is_extracted
    (author_list_to_author : gmap string value → string)
    (m : element) (k f : string) :
  meta_equivalences !! k = Some f →
  identified_as m k →
  (parse_meta_headers author_list_to_author [m] default_extra_loc
     initial_store).1
  = Ret {[ f := of_option (attr_get m "content") ]}.
Proof.
  intros Hk Hm.
  rewrite (parse_meta_headers_result _ _ _ _ meta_equivalences ∅)
    by reflexivity.
  rewrite no_authors_no_records.
  2:{ apply (identified_not_author m k Hm). intros ->. discriminate Hk. }
  destruct Hm as (Htag & n & Hn & Ht & Hl).
  rewrite find_all_meta_cons, (left_id_L ∅ (∪)) by done.
  unfold scan_metas, find_all. simpl.
  rewrite (scan_step_match _ _ m n f) by (by rewrite ?Hl).
  by rewrite insert_empty.
Qed.

Lemma builtin_entry_sample :
  (parse_meta_headers no_format
     [Element "meta" {[ "property" := "OG:Title"; "content" := "A title" ]}]
     default_extra_loc initial_store).1
  = Ret {[ "title" := VStr "A title" ]}.
Proof.
  etrans.
  - apply (builtin_entry_is_extracted no_format
             (Element "meta" {[ "property" := "OG:Title";
                                "content" := "A title" ]})
             "og:title" "title").
    + reflexivity.
    + split; [reflexivity|]. exists "OG:Title". repeat split; reflexivity.
  - reflexivity.
Defined.

Lemma author_of_tuple_raise (t : element * option element) (e : exn) :
  author_of_tuple t = Raise e →
  e = TypeError ∧ attr_get t.1 "content" = None.
Proof.
  unfold author_of_tuple.
  destruct (attr_get t.1 "content") as [fullname|]; [|by intros [= <-]].
  destruct (Str.re_split fullname) as [|g rest] eqn:Hs; [|done].
  by apply StrFacts.re_split_go_nonempty in Hs.
Qed.

Lemma author_of_tuple_no_content (t : element * option element) :
  attr_get t.1 "content" = None → author_of_tuple t = Raise TypeError.
Proof. intros H. unfold author_of_tuple. by rewrite H. Qed.

Lemma author_loop_raise (ts : list (element * option element)) :
  (∀ e, omapM author_of_tuple ts = Raise e → e = TypeError)
  ∧ (omapM author_of_tuple ts = Raise TypeError
     ↔ Exists (λ a, attr_get a "content" = None) ts.*1).
Proof.
  induction ts as [|t ts [IHe IH]]; simpl.
  - split; [done|]. split; [done|]. by intros ?%Exists_nil.
  - destruct (author_of_tuple t) as [r|e0] eqn:Ht; simpl.
    + assert (attr_get t.1 "content" ≠ None) as Hsome.
      { intros Hnone. by rewrite author_of_tuple_no_content in Ht. }
      destruct (omapM author_of_tuple ts) as [rs|e1]; simpl.
      * split; [done|]. split; [done|].
        intros [Hhd | Htl]%Exists_cons; [done|]. by apply IH in Htl.
      * split; [intros e [= <-]; by apply IHe|].
        split.
        -- intros [= ->]. apply Exists_cons_tl. by apply IH.
        -- intros _. f_equal. by apply IHe.
    + apply author_of_tuple_raise in Ht as [-> Hnone].
      split; [by intros e [= <-]|].
      split; [|done]. intros _. by apply Exists_cons_hd.
Qed.

Lemma tuples_of_processed (doc : soup) :
  ∃ ts, ts.*1 = processed_authors doc
        ∧ parse_meta_authors doc = omapM author_of_tuple ts.
Proof.
  unfold parse_meta_authors, processed_authors.
  destruct (affs_of doc) as [|f affs] eqn:Haffs;
    destruct (authors_of doc) as [|a authors] eqn:Hauthors.
  - by exists [].
  - exists ((λ a, (a, None)) <$> a :: authors). split; [|done].
    rewrite <- list_fmap_compose. apply list_fmap_id.
  - by exists [].
  - exists ((λ p, (p.1, Some p.2)) <$> zip (a :: authors) (f :: affs)).
    split; [|done].
    rewrite <- list_fmap_compose. apply fst_zip_take.
Qed.

(** X5: parse_meta_authors raises nothing but TypeError, and raises it
    exactly when one of the author elements it reads has no content
    attribute; author elements beyond the number of institutions are not
    read. *)
Theorem authors_raise_exactly (doc : soup) :
  (∀ e, parse_meta_authors doc = Raise e → e = TypeError)
  ∧ (parse_meta_authors doc = Raise TypeError
     ↔ Exists (λ a, attr_get a "content" = None) (processed_authors doc)).
Proof.
  destruct (tuples_of_processed doc) as (ts & <- & ->).
  apply author_loop_raise.
Qed.

Example unread_author_may_lack_content :
  parse_meta_authors [jane; mit; anonymous]
  = Ret [Author "Jane" "Q. Public" [Affiliation (Some "MIT")]].
Proof. reflexivity. Qed.

(** X6: from a store that holds both tables, parse_meta_headers raises
    exactly what parse_meta_authors raises; when authors are found they are
    stored under author_list, and a string under author, whatever a <meta>
    element had put under those two fields; when none is found the result is
    the scanned mapping. *)
Theorem headers_follow_authors
    (author_list_to_author : gmap string value → string)
    (doc : soup) (extra : loc) (σ : store) (tbl ex : gmap string string) :
  σ !! meta_equivalences_loc = Some tbl →
  σ !! extra = Some ex →
  let out := (parse_meta_headers author_list_to_author doc extra σ).1 in
  (∀ e, out = Raise e ↔ parse_meta_authors doc = Raise e)
  ∧ (parse_meta_authors doc = Ret [] →
     out = Ret (scan_metas (ex ∪ tbl) (find_all "meta" [] doc)))
  ∧ (∀ a al, parse_meta_authors doc = Ret (a :: al) →
       ∃ data, out = Ret data
         ∧ data !! "author_list" = Some (VAuthorList (a :: al))
         ∧ ∃ text, data !! "author" = Some (VStr text)).
Proof.
  intros Htbl Hex out. subst out.
  rewrite (parse_meta_headers_result _ _ _ _ tbl ex) by done. simpl.
  split_and!.
  - intros e. destruct (parse_meta_authors doc); simpl; split; congruence.
  - by intros ->.
  - intros a al ->. simpl. eexists. split; [done|]. split.
    + by rewrite lookup_insert_ne, lookup_insert_eq.
    + eexists. by rewrite lookup_insert_eq.
Qed.

Lemma headers_follow_authors_sample :
  ∃ data,
    (parse_meta_headers no_format [overridden_author; jane] 3%positive
       author_renaming_store).1
    = Ret data
    ∧ data !! "author_list"
      = Some (VAuthorList [Author "Jane" "Q. Public" []]).
Proof.
  destruct (headers_follow_authors no_format [overridden_author; jane]
              3%positive author_renaming_store
              meta_equivalences {[ "author" := "author_list" ]})
    as (_ & _ & Hfound); [vm_compute; reflexivity..|].
  destruct (Hfound (Author "Jane" "Q. Public" []) [])
    as (data & Hdata & Hlist & _); [vm_compute; reflexivity|].
  exists data. split; [exact Hdata | exact Hlist].
Defined.

(** X7: calls do not interfere: after any call to parse_meta_headers, a call
    gives the result it would have given before, since neither the built-in
    table nor the caller's (or the shared default) extra_equivalences has
    been written to. *)
Theorem calls_do_not_interfere
    (author_list_to_author : gmap string value → string)
    (doc doc' : soup) (extra extra' : loc) (σ : store)
    (tbl ex : gmap string string) :
  σ !! meta_equivalences_loc = Some tbl →
  σ !! extra = Some ex →
  let σ' := (parse_meta_headers author_list_to_author doc' extra' σ).2 in
  (parse_meta_headers author_list_to_author doc extra σ').1
  = (parse_meta_headers author_list_to_author doc extra σ).1.
Proof.
  intros Htbl Hex σ'.
  assert (σ ⊆ σ') as Hsub.
  { destruct (parse_meta_headers_store author_list_to_author doc' extra' σ)
      as [Heq | [d Heq]]; fold σ' in Heq; rewrite Heq; [done|].
    apply insert_subseteq, fresh_loc_unused. }
  rewrite (parse_meta_headers_result _ _ _ σ' tbl ex)
    by (by eapply lookup_weaken).
  by rewrite (parse_meta_headers_result _ _ _ σ tbl ex).
Qed.

Lemma calls_do_not_interfere_sample :
  (parse_meta_headers no_format [headline] default_extra_loc
     (parse_meta_headers no_format [untitled; jane] 3%positive
        sample_store).2).1
  = (parse_meta_headers no_format [headline] default_extra_loc
       sample_store).1.
Proof.
  apply (calls_do_not_interfere no_format [headline] [untitled; jane]
           default_extra_loc 3%positive sample_store meta_equivalences ∅);
    reflexivity.
Defined.

(** ** Splitting names *)






(** Runs of whitespace, and whitespace other than U+0020, are not kept. *)
Example name_not_recovered :
  Text.split_name em_spaced_name
  = Ret (Text.of_string "Jane", Text.of_string "Q. Public")
  ∧ author_of_tuple
      (meta_tag [("name", "citation_author"); ("content", "Jane  Doe")], None)
    = Ret (Author "Jane" "Doe" []).
Proof. split; reflexivity. Qed.

(** * Further properties of the Downloader *)

Section DownloaderMore.

Context {World Value : Type}.
Context {hooks : Hooks World Value} {collab : Collaborators World Value}.

Implicit Types s : state World Value.

Lemma within_refl s : within 0 s s.
Proof. unfold within. split_and!; [done..|]. by exists []. Qed.

Lemma within_mono n m s s' : n ≤ m → within n s s' → within m s s'.
Proof.
  intros Hnm (Hd & Hf & He & evs & Ht & Hg & Hl).
  unfold within. split_and!; [done..|]. exists evs. split_and!; [done..|lia].
Qed.

Lemma within_trans n m s1 s2 s3 :
  within n s1 s2 → within m s2 s3 → within (n + m) s1 s3.
Proof.
  intros (Hd1 & Hf1 & He1 & evs1 & Ht1 & Hg1 & Hl1)
         (Hd2 & Hf2 & He2 & evs2 & Ht2 & Hg2 & Hl2).
  unfold within. split_and!; [congruence..|].
  exists (evs2 ++ evs1). split_and!.
  - by rewrite Ht2, Ht1, app_assoc.
  - by rewrite forallb_app, Hg1, Hg2.
  - rewrite length_app. lia.
Qed.

(** Closes a goal [within n s s'] where [s'] is [s] with other attributes
    than the context and with the events [evs] in front of its trace. *)
Ltac within_by evs :=
  unfold within; simpl; split_and!; [done..|];
  exists evs; split_and!; [done | done | simpl; lia].

Lemma http_get_within s url r s' : http_get url s = (r, s') → within 1 s s'.
Proof.
  unfold http_get, sbind, log, call. simpl.
  destruct (session_get url (world s)) as [[content|e] w];
    intros [= <- <-]; within_by [EvGet url].
Qed.

Lemma download_bibtex_within s r s' :
  download_bibtex s = (r, s') → within 1 s s'.
Proof.
  unfold download_bibtex, sbind, call, sret, slift.
  destruct (get_bibtex_url (world s)) as [[url|e] w]; simpl;
    [|intros [= <- <-]; within_by (@nil event)].
  destruct (truthy_str url); simpl;
    [|intros [= <- <-]; within_by (@nil event)].
  destruct (http_get _ _) as [[content|e] s1] eqn:Hget;
    apply http_get_within in Hget.
  - destruct (decode content) as [text|e]; intros [= <- <-];
      (apply (within_trans 0 1 _ (with_world w s));
         [within_by (@nil event)|]);
      (apply (within_trans 1 0 _ s1); [done | within_by (@nil event)]).
  - intros [= <- <-].
    apply (within_trans 0 1 _ (with_world w s)); [within_by (@nil event)|done].
Qed.

Lemma download_document_within s r s' :
  download_document s = (r, s') → within 1 s s'.
Proof.
  unfold download_document, sbind, call, sret.
  destruct (get_document_url (world s)) as [[url|e] w]; simpl;
    [|intros [= <- <-]; within_by (@nil event)].
  destruct (truthy_str url); simpl;
    [|intros [= <- <-]; within_by (@nil event)].
  destruct (http_get _ _) as [[content|e] s1] eqn:Hget;
    apply http_get_within in Hget; intros [= <- <-].
  - apply (within_trans 0 1 _ (with_world w s)); [within_by (@nil event)|].
    apply (within_trans 1 0 _ s1); [done | within_by (@nil event)].
  - apply (within_trans 0 1 _ (with_world w s)); [within_by (@nil event)|done].
Qed.

Lemma get_bibtex_data_within s r s' :
  get_bibtex_data s = (r, s') → within 1 s s'.
Proof.
  unfold get_bibtex_data, sbind.
  destruct (truthy_str (bibtex_data s)); simpl.
  - intros [= <- <-]. apply (within_mono 0); [lia | apply within_refl].
  - destruct (download_bibtex s) as [[[]|e] s1] eqn:Hdl;
      apply download_bibtex_within in Hdl; by intros [= <- <-].
Qed.

Lemma get_document_data_within s r s' :
  get_document_data s = (r, s') → within 1 s s'.
Proof.
  unfold get_document_data, sbind.
  destruct (truthy_bytes (document_data s)); simpl.
  - intros [= <- <-]. apply (within_mono 0); [lia | apply within_refl].
  - destruct (download_document s) as [[[]|e] s1] eqn:Hdl;
      apply download_document_within in Hdl; by intros [= <- <-].
Qed.

(** What [get_document_data] returns is what the cache then holds. *)
Lemma get_document_data_returns s d s' :
  get_document_data s = (Ret d, s') → document_data s' = d.
Proof.
  unfold get_document_data, sbind.
  destruct (truthy_bytes (document_data s)); simpl.
  - by intros [= <- <-].
  - destruct (download_document s) as [[[]|e] s1]; [|done].
    by intros [= <- <-].
Qed.

(** With data in the cache the format check does not touch the instance. *)
Lemma check_document_format_cached_state s r s' :
  truthy_bytes (document_data s) = true →
  check_document_format s = (r, s') → s' = s.
Proof.
  intros Hc. unfold check_document_format.
  destruct (document_data s) as [content|] eqn:Hd; [|done].
  destruct (expected_document_extension s) as [|tag|tags];
    [by intros [= _ <-]|..];
    unfold sbind; rewrite (get_document_data_cached s content) by done;
    destruct (guess (Some content)); by intros [= _ <-].
Qed.

End DownloaderMore.

Section FetchMore.

Context {World Value : Type}.
Context {hooks : Hooks World Value} {collab : Collaborators World Value}.

Implicit Types s : state World Value.

Lemma requests_app (evs1 evs2 : list event) :
  requests (evs1 ++ evs2) = requests evs1 + requests evs2.
Proof. unfold requests. by rewrite List.filter_app, length_app. Qed.

Lemma temp_files_app (evs1 evs2 : list event) :
  temp_files (evs1 ++ evs2) = temp_files evs1 + temp_files evs2.
Proof. unfold temp_files. by rewrite List.filter_app, length_app. Qed.

Lemma only_gets_counts (evs : list event) :
  forallb is_get evs = true →
  requests evs = length evs ∧ temp_files evs = 0.
Proof.
  induction evs as [|ev evs IH]; simpl; [done|].
  intros [Hev Hevs]%andb_prop. destruct (IH Hevs) as [IHr IHt].
  unfold requests, temp_files in *. simpl. rewrite Hev.
  destruct ev; simpl in *; try done. by rewrite IHr, IHt.
Qed.

Lemma grows_refl s : grows 0 0 s s.
Proof.
  unfold grows. split_and!; [done | | done |].
  - exists []. by rewrite app_nil_r.
  - by exists [].
Qed.

Lemma grows_mono a b c d s s' :
  a ≤ c → b ≤ d → grows a b s s' → grows c d s s'.
Proof.
  intros Hac Hbd (Hdom & (new & Hf & Hnew) & He & evs & Ht & Hr & Htmp).
  unfold grows. split_and!; [done | | done |].
  - exists new. split; [done | lia].
  - exists evs. split_and!; [done | lia..].
Qed.

Lemma grows_trans a b c d s1 s2 s3 :
  grows a b s1 s2 → grows c d s2 s3 → grows (a + c) (b + d) s1 s3.
Proof.
  intros (Hdom1 & (new1 & Hf1 & Hn1) & He1 & evs1 & Ht1 & Hr1 & Htmp1)
         (Hdom2 & (new2 & Hf2 & Hn2) & He2 & evs2 & Ht2 & Hr2 & Htmp2).
  unfold grows. split_and!.
  - set_solver.
  - exists (new1 ++ new2). rewrite Hf2, Hf1, length_app.
    split; [by rewrite app_assoc | lia].
  - congruence.
  - exists (evs2 ++ evs1). rewrite Ht2, Ht1, requests_app, temp_files_app.
    split_and!; [by rewrite app_assoc | lia..].
Qed.

Lemma within_grows n s s' : within n s s' → grows n 0 s s'.
Proof.
  intros (Hd & Hf & He & evs & Ht & Hg & Hl).
  destruct (only_gets_counts evs Hg) as [Hr Htmp].
  unfold grows. split_and!; [by rewrite Hd | | done |].
  - exists []. by rewrite app_nil_r.
  - exists evs. split_and!; [done | lia..].
Qed.

Lemma grows_world s w : grows 0 0 s (with_world w s).
Proof. apply within_grows. unfold within. simpl. split_and!; [done..|]. by exists []. Qed.

Lemma data_stage_grows s r s' : data_stage s = (r, s') → grows 0 0 s s'.
Proof.
  unfold data_stage, try_not_implemented, sbind, call, sret, sraise,
    ctx_update.
  destruct (get_data (world s)) as [[[d|]|e] w]; simpl.
  - intros [= <- <-]. unfold grows. simpl. split_and!.
    + rewrite dom_union_L. set_solver.
    + exists []. by rewrite app_nil_r.
    + done.
    + by exists [].
  - intros [= <- <-]. apply grows_world.
  - destruct e; intros [= <- <-]; apply grows_world.
Qed.

Lemma doi_stage_grows s r s' : doi_stage s = (r, s') → grows 0 0 s s'.
Proof.
  unfold doi_stage, try_not_implemented, call, ctx_setitem.
  destruct (get_doi (world s)) as [[doi|e] w]; simpl.
  - intros [= <- <-]. unfold grows. simpl. split_and!.
    + rewrite dom_insert_L. set_solver.
    + exists []. by rewrite app_nil_r.
    + done.
    + by exists [].
  - destruct e; intros [= <- <-]; apply grows_world.
Qed.

Lemma ctx_update_grows s d : grows 0 0 s (with_ctx_data (d ∪ ctx_data s) s).
Proof.
  unfold grows. simpl. split_and!.
  - rewrite dom_union_L. set_solver.
  - exists []. by rewrite app_nil_r.
  - done.
  - by exists [].
Qed.

(** The bibtex stage in full: at most two requests; when it raises, the
    context is as it was. *)
Lemma bibtex_stage_effects s r s' :
  bibtex_stage s = (r, s') →
  grows 2 0 s s' ∧ (∀ e, r = Raise e → within 2 s s').
Proof.
  unfold bibtex_stage, try_not_implemented.
  destruct (download_bibtex s) as [[[]|e] s1] eqn:Hdl;
    apply download_bibtex_within in Hdl.
  - unfold sbind.
    destruct (get_bibtex_data s1) as [[raw|e] s2] eqn:Hget;
      apply get_bibtex_data_within in Hget;
      pose proof (within_trans _ _ _ _ _ Hdl Hget) as H12.
    + destruct (truthy_str raw).
      * unfold slift.
        destruct (bibtex_to_dict (default "" raw)) as [[|entry rest]|e].
        -- intros [= <- <-]. split; [by apply within_grows | done].
        -- unfold ctx_update. intros [= <- <-]. split; [|done].
           apply (grows_trans 2 0 0 0 _ s2); [by apply within_grows|].
           apply ctx_update_grows.
        -- intros [= <- <-]. split; [by apply within_grows | done].
      * intros [= <- <-]. split; [by apply within_grows | done].
    + intros [= <- <-]. split; [by apply within_grows | done].
  - assert (within 2 s s1) as H2 by (apply (within_mono 1); [lia | done]).
    destruct e; intros [= <- <-]; (split; [by apply within_grows | done]).
Qed.

Lemma save_document_grows s doc r s' :
  save_document doc s = (r, s') → grows 0 1 s s'.
Proof.
  unfold save_document, sbind, call, log, ctx_append. simpl.
  destruct (mktemp (world s)) as [tmp w]. simpl.
  destruct (write_file tmp doc w) as [[[]|e] w']; intros [= <- <-];
    unfold grows; simpl; (split_and!; [done | | done |]).
  - exists [tmp]. split; [done | simpl; lia].
  - exists [EvWrite tmp doc; EvMktemp tmp]. split_and!; [done | ..];
      vm_compute; lia.
  - exists []. split; [by rewrite app_nil_r | simpl; lia].
  - exists [EvWrite tmp doc; EvMktemp tmp]. split_and!; [done | ..];
      vm_compute; lia.
Qed.

Lemma document_stage_grows s r s' :
  document_stage s = (r, s') → grows 2 1 s s'.
Proof.
  unfold document_stage, try_not_implemented.
  destruct (download_document s) as [[[]|e] s1] eqn:Hdl;
    apply download_document_within in Hdl.
  - unfold sbind.
    destruct (get_document_data s1) as [[doc|e] s2] eqn:Hget;
      pose proof (get_document_data_within _ _ _ Hget) as Hget';
      pose proof (within_trans _ _ _ _ _ Hdl Hget') as H12;
      [|intros [= <- <-]; apply (grows_mono 2 0); [lia.. | by apply within_grows]].
    apply get_document_data_returns in Hget.
    destruct (truthy_bytes doc) eqn:Hdoc;
      [|intros [= <- <-]; apply (grows_mono 2 0); [lia.. | by apply within_grows]].
    assert (truthy_bytes (document_data s2) = true) as Hcache
      by (by rewrite Hget).
    destruct (check_document_format s2) as [[ok|e] s3] eqn:Hck;
      apply (check_document_format_cached_state _ _ _ Hcache) in Hck;
      subst s3;
      [|intros [= <- <-]; apply (grows_mono 2 0); [lia.. | by apply within_grows]].
    destruct ok;
      [|intros [= <- <-]; apply (grows_mono 2 0); [lia.. | by apply within_grows]].
    intros Hsave%save_document_grows.
    apply (grows_trans 2 0 0 1 _ s2); [by apply within_grows | done].
  - assert (grows 2 1 s s1) as H2.
    { apply (grows_mono 1 0); [lia.. | by apply within_grows]. }
    destruct e; by intros [= <- <-].
Qed.

(** X9: whatever it returns or raises, fetch keeps every key of the data of
    the context, appends at most one path to its files, leaves the expected
    extension alone, issues at most four HTTP requests and names at most one
    temporary file. *)
Theorem fetch_effects_are_bounded s r s' :
  fetch s = (r, s') → grows 4 1 s s'.
Proof.
  unfold fetch, sbind.
  destruct (data_stage s) as [[[]|e1] s1] eqn:H1;
    apply data_stage_grows in H1;
    [|intros [= <- <-]; by apply (grows_mono 0 0); [lia..|]].
  destruct (bibtex_stage s1) as [[[]|e2] s2] eqn:H2;
    apply bibtex_stage_effects in H2 as [H2 _];
    pose proof (grows_trans _ _ _ _ _ _ _ H1 H2) as H02;
    [|intros [= <- <-]; by apply (grows_mono 2 0); [lia..|]].
  destruct (doi_stage s2) as [[[]|e3] s3] eqn:H3;
    apply doi_stage_grows in H3;
    pose proof (grows_trans _ _ _ _ _ _ _ H02 H3) as H03;
    [|intros [= <- <-]; by apply (grows_mono 2 0); [lia..|]].
  intros H4%document_stage_grows.
  apply (grows_mono (0 + 2 + 0 + 2) (0 + 0 + 0 + 1)); [lia..|].
  by apply (grows_trans _ _ _ _ _ s3).
Qed.

(** X10: a cache that holds a non-empty value is returned as it is by
    get_bibtex_data and get_document_data: no hook is called, nothing is
    requested and the instance is unchanged. *)
Theorem filled_cache_is_reused s :
  (∀ text, bibtex_data s = Some text → Str.truthy text = true →
     get_bibtex_data s = (Ret (Some text), s))
  ∧ (∀ content, document_data s = Some content →
       bytes_truthy content = true →
       get_document_data s = (Ret (Some content), s)).
Proof.
  split.
  - intros text. apply get_bibtex_data_cached.
  - intros content. apply get_document_data_cached.
Qed.

(** X11: on non-empty cached data check_document_format leaves the instance
    as it is and: returns True without an expected extension; with one
    expected tag returns whether the sniffed tag is that tag, False when
    nothing is sniffed; with a list of tags returns False when nothing is
    sniffed and raises UnboundLocalError otherwise. *)
Theorem format_check_on_cached_data s content :
  document_data s = Some content →
  bytes_truthy content = true →
  check_document_format s
  = (match expected_document_extension s, guess (Some content) with
     | ExtNone, _ => Ret true
     | ExtTag tag, Some extension => Ret (bool_decide (extension = tag))
     | ExtTag _, None => Ret false
     | ExtList _, Some _ => Raise UnboundLocalError
     | ExtList _, None => Ret false
     end, s).
Proof.
  intros Hd Ht.
  destruct (expected_document_extension s) as [|tag|tags] eqn:He.
  - by apply check_document_format_unconfigured.
  - rewrite (check_document_format_tag s tag content) by done.
    by destruct (guess (Some content)).
  - rewrite (check_document_format_list s tags content) by done.
    by destruct (guess (Some content)).
Qed.

(** X12: when the bibtex stage raises, fetch raises the same exception and
    nothing is rolled back: the data of the context are the data after the
    get_data stage, and the files are untouched. *)
Theorem fetch_does_not_roll_back s0 s1 s2 e :
  data_stage s0 = (Ret tt, s1) →
  bibtex_stage s1 = (Raise e, s2) →
  fetch s0 = (Raise e, s2)
  ∧ ctx_data s2 = ctx_data s1
  ∧ ctx_files s2 = ctx_files s0.
Proof.
  intros H1 H2. split.
  - unfold fetch, sbind. by rewrite H1, H2.
  - apply bibtex_stage_effects in H2 as [_ H2].
    destruct (H2 e eq_refl) as (Hd & Hf & _).
    apply data_stage_grows in H1 as (_ & (new & Hnew & Hlen) & _).
    split; [done|]. rewrite Hf, Hnew.
    destruct new; [by rewrite app_nil_r | simpl in Hlen; lia].
Qed.

(** X13: when get_data returns something that is not a dictionary, or raises
    anything but NotImplementedError, fetch stops there: it raises
    AssertionError, resp. that exception, and the instance is as get_data
    left the world, with the context, the caches and the trace untouched. *)
Theorem fetch_stops_at_bad_data s r w :
  get_data (world s) = (r, w) →
  (∀ d, r ≠ Ret (Some d)) →
  r ≠ Raise NotImplementedError →
  fetch s
  = (Raise match r with Raise e => e | Ret _ => AssertionError end,
     with_world w s).
Proof.
  intros Hget Hdict Hni.
  assert (data_stage s
          = (Raise match r with Raise e => e | Ret _ => AssertionError end,
             with_world w s)) as Hstage.
  { unfold data_stage, try_not_implemented, sbind, call, sraise.
    rewrite Hget. simpl.
    destruct r as [[d|]|e]; simpl.
    - by destruct (Hdict d).
    - done.
    - by destruct e. }
  unfold fetch, sbind. by rewrite Hstage.
Qed.

(** X14: a downloader that implements get_data only: fetch returns, the
    data of the context are those of get_data laid over the caller's (the
    caller's value of a key survives exactly when get_data does not give
    that key), and neither a file nor a request is made. *)
Theorem fetch_data_only s d w :
  get_data (world s) = (Ret (Some d), w) →
  (∀ w, (get_bibtex_url w).1 = Raise NotImplementedError) →
  (∀ w, (get_doi w).1 = Raise NotImplementedError) →
  (∀ w, (get_document_url w).1 = Raise NotImplementedError) →
  ∃ s', fetch s = (Ret tt, s')
    ∧ ctx_data s' = d ∪ ctx_data s
    ∧ (∀ k v, d !! k = Some v → ctx_data s' !! k = Some v)
    ∧ (∀ k, d !! k = None → ctx_data s' !! k = ctx_data s !! k)
    ∧ ctx_files s' = ctx_files s
    ∧ trace s' = trace s.
Proof.
  intros Hdata Hbib Hdoi Hdoc.
  assert (∀ s1, doi_stage s1 = (Ret tt, with_world (get_doi (world s1)).2 s1))
    as Hdoi_stage.
  { intros s1. unfold doi_stage, try_not_implemented, call.
    specialize (Hdoi (world s1)).
    destruct (get_doi (world s1)) as [r1 w1]. simpl in *. by rewrite Hdoi. }
  eexists. split.
  - apply fetch_stages. eexists _, _, _. split_and!.
    + unfold data_stage, try_not_implemented, sbind, call, sret, ctx_update.
      by rewrite Hdata.
    + apply bibtex_stage_unimplemented, Hbib.
    + apply Hdoi_stage.
    + apply document_stage_unimplemented, Hdoc.
  - simpl. split_and!; [done | | | done..].
    + intros k v Hk. by apply lookup_union_Some_l.
    + intros k Hk. by apply lookup_union_r.
Qed.

(** X15: a falsy URL (None or the empty string) means no download: with an
    empty cache, the bibtex stage, resp. the document stage, asks the hook
    twice, requests nothing and leaves the context, the caches and the trace
    as they were. *)
Theorem empty_url_skips_download s :
  (∀ u1 w1 u2 w2,
     truthy_str (bibtex_data s) = false →
     get_bibtex_url (world s) = (Ret u1, w1) → truthy_str u1 = false →
     get_bibtex_url w1 = (Ret u2, w2) → truthy_str u2 = false →
     bibtex_stage s = (Ret tt, with_world w2 s))
  ∧ (∀ u1 w1 u2 w2,
       truthy_bytes (document_data s) = false →
       get_document_url (world s) = (Ret u1, w1) → truthy_str u1 = false →
       get_document_url w1 = (Ret u2, w2) → truthy_str u2 = false →
       document_stage s = (Ret tt, with_world w2 s)).
Proof.
  split; intros u1 w1 u2 w2 Hcache H1 Hu1 H2 Hu2.
  - unfold bibtex_stage, try_not_implemented, sbind, get_bibtex_data,
      download_bibtex, sbind, call, sret.
    rewrite H1, Hu1. simpl. rewrite Hcache. simpl.
    rewrite H2, Hu2. simpl. by rewrite Hcache.
  - unfold document_stage, try_not_implemented, sbind, get_document_data,
      download_document, sbind, call, sret.
    rewrite H1, Hu1. simpl. rewrite Hcache. simpl.
    rewrite H2, Hu2. simpl. by rewrite Hcache.
Qed.

(** X16: when the format check passes, the document stage writes the cached
    bytes to the path mktemp gave; the path is appended to the files of the
    context if the write returns, and fetch raises what the write raises
    otherwise, the files being as they were. The data are untouched. *)
Theorem accepted_document_is_saved s s1 s2 s3 doc tmp w rw w' :
  download_document s = (Ret tt, s1) →
  get_document_data s1 = (Ret (Some doc), s2) →
  bytes_truthy doc = true →
  check_document_format s2 = (Ret true, s3) →
  mktemp (world s3) = (tmp, w) →
  write_file tmp doc w = (rw, w') →
  ∃ s4, document_stage s = (rw, s4)
    ∧ ctx_files s4
      = match rw with
        | Ret _ => ctx_files s ++ [tmp]
        | Raise _ => ctx_files s
        end
    ∧ ctx_data s4 = ctx_data s
    ∧ trace s4 = EvWrite tmp doc :: EvMktemp tmp :: trace s3
    ∧ document_data s4 = Some doc.
Proof.
  intros Hdl Hget Hdoc Hck Htmp Hwrite.
  pose proof (get_document_data_returns _ _ _ Hget) as Hcache.
  assert (s3 = s2) as ->.
  { apply (check_document_format_cached_state s2 (Ret true)); [|done].
    by rewrite Hcache. }
  apply download_document_within in Hdl as Hq1.
  apply get_document_data_within in Hget as Hq2.
  destruct (within_trans _ _ _ _ _ Hq1 Hq2) as (Hd & Hf & _).
  unfold document_stage, try_not_implemented, sbind.
  rewrite Hdl, Hget. simpl. rewrite Hdoc, Hck.
  unfold save_document, sbind, call, log, ctx_append. simpl.
  rewrite Htmp. simpl. rewrite Hwrite.
  destruct rw as [[]|e]; eexists; (split; [reflexivity|]); simpl;
    by rewrite Hd, Hf.
Qed.

End FetchMore.

(** X17: the base class by itself does nothing: with no hook overridden,
    fetch returns and the instance, its context, its caches and the trace
    are exactly as before, whatever the collaborators are. *)
Theorem base_fetch_does_nothing {World Value : Type}
    (collab : Collaborators World Value) (s : state World Value) :
  @fetch _ _ (base_hooks World Value) collab s = (Ret tt, s).
Proof. by destruct s. Qed.

Lemma fetch_effects_sample :
  grows 4 1 (fresh_state (ExtTag "pdf"))
    (@fetch _ _ full_hooks sample_collab (fresh_state (ExtTag "pdf"))).2.
Proof.
  apply (@fetch_effects_are_bounded _ _ full_hooks sample_collab
           (fresh_state (ExtTag "pdf")) (Ret tt)).
  vm_compute. reflexivity.
Defined.

Lemma filled_cache_sample :
  @get_document_data _ _ empty_hooks failing_collab (pdf_cached ExtNone)
  = (Ret (Some pdf_bytes), pdf_cached ExtNone).
Proof.
  apply (@filled_cache_is_reused _ _ empty_hooks failing_collab
           (pdf_cached ExtNone)); reflexivity.
Defined.

Lemma format_check_sample :
  @check_document_format _ _ full_hooks sample_collab
    (pdf_cached (ExtTag "epub"))
  = (Ret false, pdf_cached (ExtTag "epub")).
Proof.
  etrans.
  - apply (@format_check_on_cached_data _ _ full_hooks sample_collab
             (pdf_cached (ExtTag "epub")) pdf_bytes); reflexivity.
  - reflexivity.
Defined.

Lemma no_roll_back_sample :
  let s0 := fresh_state ExtNone in
  let s1 := (data_stage (hooks:=full_hooks) s0).2 in
  let s2 := (@bibtex_stage _ _ full_hooks failing_collab s1).2 in
  @fetch _ _ full_hooks failing_collab s0 = (Raise (OtherError "timeout"), s2)
  ∧ ctx_data s2 = ctx_data s1
  ∧ ctx_files s2 = ctx_files s0.
Proof.
  intros s0 s1 s2.
  apply (@fetch_does_not_roll_back _ _ full_hooks failing_collab s0 s1 s2);
    vm_compute; reflexivity.
Defined.

Example no_roll_back_run :
  ctx_data (@fetch _ _ full_hooks failing_collab (fresh_state ExtNone)).2
  = sample_data.
Proof. vm_compute. reflexivity. Qed.

Lemma bad_data_sample :
  @fetch _ _ bad_data_hooks sample_collab (fresh_state ExtNone)
  = (Raise AssertionError, with_world 0 (fresh_state ExtNone)).
Proof.
  apply (@fetch_stops_at_bad_data _ _ bad_data_hooks sample_collab
           (fresh_state ExtNone) (Ret None) 0).
  - reflexivity.
  - intros d H. discriminate H.
  - intros H. discriminate H.
Defined.

Lemma fetch_data_only_sample :
  ∃ s', @fetch _ _ data_only_hooks sample_collab filled_state = (Ret tt, s')
        ∧ ctx_data s' !! "title" = Some "From data"
        ∧ ctx_data s' !! "note" = Some "keep"
        ∧ ctx_files s' = ["/old.pdf"].
Proof.
  destruct (@fetch_data_only _ _ data_only_hooks sample_collab filled_state
              sample_data 0)
    as (s' & Hrun & _ & Hnew & Hold & Hfiles & _);
    [reflexivity | intros w; reflexivity..|].
  exists s'. split_and!.
  - exact Hrun.
  - apply Hnew. reflexivity.
  - rewrite Hold; reflexivity.
  - exact Hfiles.
Defined.

Lemma empty_url_sample :
  @bibtex_stage _ _ no_url_hooks sample_collab (fresh_state ExtNone)
  = (Ret tt, with_world 2 (fresh_state ExtNone))
  ∧ @document_stage _ _ no_url_hooks sample_collab (fresh_state ExtNone)
    = (Ret tt, with_world 2 (fresh_state ExtNone)).
Proof.
  destruct (@empty_url_skips_download _ _ no_url_hooks sample_collab
              (fresh_state ExtNone)) as [Hbib Hdoc].
  split.
  - apply (Hbib (Some "") 1 (Some "") 2); reflexivity.
  - apply (Hdoc None 1 None 2); reflexivity.
Defined.

Lemma accepted_document_sample :
  ∃ s4, @document_stage _ _ full_hooks sample_collab
          (fresh_state (ExtTag "pdf")) = (Ret tt, s4)
        ∧ ctx_files s4 = ["/tmp/tmp0"]
        ∧ trace s4 = [EvWrite "/tmp/tmp0" pdf_bytes; EvMktemp "/tmp/tmp0";
                      EvGet "http://site/paper.pdf"].
Proof.
  destruct (@accepted_document_is_saved _ _ full_hooks sample_collab
              (fresh_state (ExtTag "pdf")) (pdf_cached (ExtTag "pdf"))
              (pdf_cached (ExtTag "pdf")) (pdf_cached (ExtTag "pdf"))
              pdf_bytes "/tmp/tmp0" 1 (Ret tt) 1)
    as (s4 & Hrun & Hfiles & _ & Htrace & _); [reflexivity..|].
  exists s4. split_and!; [exact Hrun | exact Hfiles | exact Htrace].
Defined.
